(** * gobuild: the watch / debounce / build / restart loop of [builder.go]

    A shallow embedding of [builder.go].  Pure code ([isIgnore], the name
    resolution and the extension normalisation of [newBuilder]) becomes Rocq
    functions over byte strings.  Code that talks to the operating system
    ([build], [restart], the body of the [watch] loop) lives in a small monad
    that threads the history of external calls and asks an oracle for the
    outcome of each of them. *)

From Stdlib Require Import ZArith List Bool Ascii String Lia.
Import ListNotations.

Local Open Scope string_scope.
Local Open Scope Z_scope.

(** ** Go strings

    A Go [string] is a sequence of bytes; [String.string] is the same thing,
    a list of 8-bit characters. *)

Module GoString.

(** [len(s)] *)
Definition len (s : string) : Z := Z.of_nat (String.length s).

(** [s[i:]] for [0 <= i <= len(s)]. *)
Fixpoint drop (n : nat) (s : string) : string :=
  match n, s with
  | O, _ => s
  | S n', String _ s' => drop n' s'
  | S _, EmptyString => EmptyString
  end.

(** [strings.HasSuffix]:
    [len(s) >= len(suffix) && s[len(s)-len(suffix):] == suffix]. *)
Definition HasSuffix (s suffix : string) : bool :=
  (len suffix <=? len s)
  && String.eqb (drop (String.length s - String.length suffix) s) suffix.

(** [strings.IndexByte]: the index of the first [c] in [s], or [-1]. *)
Fixpoint IndexByteFrom (i : Z) (s : string) (c : ascii) : Z :=
  match s with
  | EmptyString => -1
  | String a s' => if Ascii.eqb a c then i else IndexByteFrom (i + 1) s' c
  end.

Definition IndexByte (s : string) (c : ascii) : Z := IndexByteFrom 0 s c.

(** [s[0]], for a non-empty [s]. *)
Definition head (s : string) : option ascii :=
  match s with
  | EmptyString => None
  | String a _ => Some a
  end.

(** Membership of a byte, the logical reading of [IndexByte s c >= 0]. *)
Fixpoint contains (s : string) (c : ascii) : bool :=
  match s with
  | EmptyString => false
  | String a s' => Ascii.eqb a c || contains s' c
  end.

End GoString.
Import GoString.

(** ** The platform

    [runtime.GOOS], [filepath.Separator] and [filepath.Base] are fixed by the
    platform the tool is compiled for; the code reads them, so they are
    parameters of the embedding. *)

Record platform : Type := {
  GOOS : string;
  Separator : ascii;
  Base : string -> string
}.

Module Unix.

(** Strip trailing slashes (the first loop of [filepath.Base]); the string
    is held reversed. *)
Fixpoint stripSlashes (rev_path : list ascii) : list ascii :=
  match rev_path with
  | a :: r => if Ascii.eqb a "/" then stripSlashes r else rev_path
  | [] => []
  end.

(** The last element: the bytes after the last slash; the input is the
    reversed path, the output is in reading order. *)
Fixpoint lastElement (rev_path : list ascii) (acc : string) : string :=
  match rev_path with
  | a :: r => if Ascii.eqb a "/" then acc else lastElement r (String a acc)
  | [] => acc
  end.

(** [filepath.Base] of package [path/filepath] on Unix, where the volume
    name is always empty. *)
Definition Base (path : string) : string :=
  if String.eqb path "" then "."
  else
    let last := lastElement (stripSlashes (rev (list_ascii_of_string path))) "" in
    if String.eqb last "" then "/" else last.

End Unix.

Definition unix : platform :=
  {| GOOS := "linux"; Separator := "/"; Base := Unix.Base |}.

(** ** Data *)

(** [os.Process]: the handle of a started process. *)
Definition pid : Type := nat.

(** A Go [error], by its message. *)
Definition error : Type := string.

(** The part of [exec.Cmd] the builder uses: the path of the executable and
    the process, [nil] until a start succeeds. *)
Record Cmd : Type := {
  Path : string;
  Process : option pid
}.

(** [exec.Command(name)] for a [name] that holds a path separator: no
    look-up in [PATH] takes place and [Path] is the name.  Every name
    [newBuilder] passes is of that kind ([resolveOutputName_separator]
    below). *)
Definition Command (name : string) : Cmd :=
  {| Path := name; Process := None |}.

(** [type builder struct]; [appCmd] is a pointer and may be [nil]. *)
Record builder : Type := {
  exts : list string;
  appCmd : option Cmd;
  goCmdArgs : list string
}.

(** ** [newBuilder] *)

Section NewBuilder.

Variable pf : platform.

(** Lines 37-46: the name of the compiled program. *)
Definition resolveOutputName (wd outputName : string) : string :=
  let outputName :=
    if len outputName =? 0 then Base pf wd else outputName in
  let outputName :=
    if String.eqb (GOOS pf) "windows" && negb (HasSuffix outputName ".exe")
    then outputName ++ ".exe" else outputName in
  if (IndexByte outputName "/" <? 0)
     || (IndexByte outputName (Separator pf) <? 0)
  then wd ++ String (Separator pf) "" ++ outputName
  else outputName.

(** Lines 53-57: the arguments of [go build]. *)
Definition buildArgs (mainFiles outputName : string) : list string :=
  let args := ["build"; "-o"; outputName] in
  if 0 <? len mainFiles then args ++ [mainFiles] else args.

(** Lines 59-69: the loop over [exts], [newExts] being the slice under
    construction. *)
Fixpoint normalizeExts (newExts exts : list string) : list string :=
  match exts with
  | [] => newExts
  | ext :: rest =>
      match head ext with
      | None => normalizeExts newExts rest
      | Some c =>
          let ext := if Ascii.eqb c "." then ext else "." ++ ext in
          normalizeExts (newExts ++ [ext]) rest
      end
  end.

(** [newBuilder], given the working directory [os.Getwd] returned.  The
    registration of [paths] with the watcher is a start-up effect that no
    field of the result depends on. *)
Definition newBuilder (wd mainFiles outputName : string)
    (exts paths : list string) : builder :=
  let outputName := resolveOutputName wd outputName in
  {| exts := normalizeExts [] exts;
     appCmd := Some (Command outputName);
     goCmdArgs := buildArgs mainFiles outputName |}.

End NewBuilder.

(** ** [isIgnore] *)

(** The loop of lines 86-96. *)
Fixpoint scanExts (exts : list string) (path : string) : bool :=
  match exts with
  | [] => true
  | ext :: rest =>
      if len ext =? 0 then scanExts rest path
      else if String.eqb ext "*" then false
      else if HasSuffix path ext then false
      else scanExts rest path
  end.

Definition isIgnore (b : builder) (path : string) : bool :=
  match appCmd b with
  | Some c => if String.eqb (Path c) path then true else scanExts (exts b) path
  | None => scanExts (exts b) path
  end.

(** ** The outside world

    [build], [restart] and the watch loop call the logger, the clock, the Go
    tool chain and the process table.  Each such call is recorded, with its
    outcome, in the history; the outcome is chosen by an oracle that sees the
    history so far, so that a statement quantified over oracles holds for every
    behaviour of the environment. *)

(** The severity tags handed to [log]. *)
Inductive level : Type := info | erro | succ | ignore | warn.

(** [fsnotify.Event]; [Op] is a bit mask held in a [uint32]. *)
Record Event : Type := {
  Name : string;
  Op : Z
}.

(** [fsnotify.Op]: [Create Op = 1 << iota], then [Write], [Remove], [Rename]
    and [Chmod]. *)
Definition Create : Z := 1.
Definition Write : Z := 2.
Definition Remove : Z := 4.
Definition Rename : Z := 8.
Definition Chmod : Z := 16.

(** The arguments [log] is given after the severity. *)
Inductive value : Type :=
| VStr (s : string)
| VErr (e : error)
| VEvent (e : Event).

(** One external call together with what it returned. *)
Inductive call : Type :=
| CLog (l : level) (args : list value)          (* log(l, args...) *)
| CGoRun (args : list string) (res : option error)
                                        (* exec.Command("go", args...).Run() *)
| CKill (p : pid) (res : option error)           (* p.Kill() *)
| CStartProcess (path : string) (res : error + pid)
                                        (* os.StartProcess inside Cmd.Start *)
| CWait (p : pid) (res : option error)           (* Cmd.Wait *)
| CNow (t : Z)                                   (* time.Now().Unix() *)
| CGoBuild.                                      (* go b.build() *)

Definition history : Type := list call.

Record oracle : Type := {
  goRun : history -> list string -> option error;
  kill : history -> pid -> option error;
  startProcess : history -> string -> error + pid;
  wait : history -> pid -> option error;
  now : history -> Z
}.

(** [int64] arithmetic: the value of a [Z] once stored in 64 bits, two's
    complement. *)
Definition int64 (z : Z) : Z := (z + 2 ^ 63) mod 2 ^ 64 - 2 ^ 63.
Definition sub64 (a b : Z) : Z := int64 (a - b).
Definition max_int64 : Z := 2 ^ 63 - 1.

(** The monad: read the oracle, extend the history. *)
Definition M (A : Type) : Type := oracle -> history -> A * history.

Definition ret {A : Type} (a : A) : M A := fun _ h => (a, h).

Definition bind {A B : Type} (m : M A) (k : A -> M B) : M B :=
  fun o h => let (a, h') := m o h in k a o h'.

Notation "x <- m ;; k" := (bind m (fun x => k))
  (at level 61, m at next level, right associativity).
Notation "m ;; k" := (bind m (fun _ => k))
  (at level 61, right associativity).

Definition Log (l : level) (args : list value) : M unit :=
  fun _ h => (tt, (h ++ [CLog l args])%list).

Definition GoRun (args : list string) : M (option error) :=
  fun o h => let r := goRun o h args in (r, (h ++ [CGoRun args r])%list).

Definition Kill (p : pid) : M (option error) :=
  fun o h => let r := kill o h p in (r, (h ++ [CKill p r])%list).

Definition StartProcess (path : string) : M (error + pid) :=
  fun o h => let r := startProcess o h path in (r, (h ++ [CStartProcess path r])%list).

Definition Wait (p : pid) : M (option error) :=
  fun o h => let r := wait o h p in (r, (h ++ [CWait p r])%list).

Definition Now : M Z :=
  fun o h => let t := int64 (now o h) in (t, (h ++ [CNow t])%list).

Definition GoBuild : M unit :=
  fun _ h => (tt, (h ++ [CGoBuild])%list).

(** ** [exec.Cmd]

    Package [os/exec]: [Start] refuses a command whose [Process] is already
    set ("exec: already started"); otherwise it asks the system for a
    process and stores it in [Process] when that succeeds.  [Run] is [Start]
    followed, when the start succeeded, by [Wait]. *)

Definition Cmd_Start (c : Cmd) : M (Cmd * option error) :=
  match Process c with
  | Some _ => ret (c, Some "exec: already started")
  | None =>
      r <- StartProcess (Path c) ;;
      match r with
      | inl e => ret (c, Some e)
      | inr p => ret ({| Path := Path c; Process := Some p |}, None)
      end
  end.

Definition Cmd_Run (c : Cmd) : M (Cmd * option error) :=
  r <- Cmd_Start c ;;
  match r with
  | (c', Some e) => ret (c', Some e)
  | (c', None) =>
      match Process c' with
      | Some p => e <- Wait p ;; ret (c', e)
      | None => ret (c', None)
      end
  end.

(** ** [restart] and [build] *)

(** Lines 126-132: the process of the command, when it has one, is killed;
    a failure is logged and nothing else. *)
Definition killOld (c : Cmd) : M unit :=
  match Process c with
  | Some p =>
      Log info [VStr "中止旧进程..."] ;;
      err <- Kill p ;;
      match err with
      | Some e => Log erro [VStr "kill:"; VErr e]
      | None => ret tt
      end
  | None => ret tt
  end.

(** Lines 134-136: [b.appCmd.Run()].  [b.appCmd] is shared by every call:
    the command run is the one [newBuilder] made, and what [Run] stores in
    it is seen by the next call. *)
Definition launch (b : builder) (c : Cmd) : M builder :=
  r <- Cmd_Run c ;;
  match snd r with
  | Some e => Log erro [VStr "启动进程时出错:"; VErr e]
  | None => ret tt
  end ;;
  ret {| exts := exts b; appCmd := Some (fst r); goCmdArgs := goCmdArgs b |}.

(** When [b.appCmd] is [nil] the call [b.appCmd.Run()] panics and the
    deferred function logs what [recover] returns. *)
Definition restart (b : builder) : M builder :=
  match appCmd b with
  | None =>
      Log erro [VStr "restart.defer:";
                VErr "runtime error: invalid memory address or nil pointer dereference"] ;;
      ret b
  | Some c => killOld c ;; launch b c
  end.

Definition build (b : builder) : M builder :=
  Log info [VStr "编译代码..."] ;;
  err <- GoRun (goCmdArgs b) ;;
  match err with
  | Some e => Log erro [VStr "编译失败:"; VErr e] ;; ret b
  | None => Log succ [VStr "编译成功!"] ;; restart b
  end.

(** ** The watch loop *)

(** One turn of the [select] on [watcher.Events]: the new value of
    [buildTime] is returned. *)
Definition onEvent (b : builder) (buildTime : Z) (event : Event) : M Z :=
  if Z.land (Op event) Chmod =? Chmod then
    Log ignore [VStr "watcher.Events:忽略CHMOD事件:"; VEvent event] ;;
    ret buildTime
  else if isIgnore b (Name event) then
    Log ignore [VStr "watcher.Events:忽略不被监视的文件:"; VEvent event] ;;
    ret buildTime
  else
    t <- Now ;;
    if sub64 t buildTime <=? 1 then
      Log ignore [VStr "watcher.Events:该监控事件被忽略:"; VEvent event] ;;
      ret buildTime
    else
      t' <- Now ;;
      Log info [VStr "watcher.Events:触发编译事件:"; VEvent event] ;;
      GoBuild ;;
      ret t'.

(** What the two channels of the watcher deliver. *)
Inductive message : Type :=
| OnEvents (event : Event)
| OnErrors (err : error).

(** The [for] loop of the goroutine, over the messages received so far. *)
Fixpoint watchLoop (b : builder) (buildTime : Z) (msgs : list message) : M Z :=
  match msgs with
  | [] => ret buildTime
  | OnEvents event :: rest =>
      buildTime' <- onEvent b buildTime event ;;
      watchLoop b buildTime' rest
  | OnErrors err :: rest =>
      Log warn [VStr "watcher.Errors"; VErr err] ;;
      watchLoop b buildTime rest
  end.

(** The goroutine [watch] starts once the paths are registered:
    [var buildTime int64], so the loop starts from the zero value. *)
Definition watch (b : builder) (msgs : list message) : M Z :=
  watchLoop b 0 msgs.

(** ** What the specification calls things *)

(** The resolved build-output path of a builder: the path of its command. *)
Definition outputPath (b : builder) : option string :=
  match appCmd b with
  | Some c => Some (Path c)
  | None => None
  end.

(** A configured extension: an entry of [b.exts] that is not the empty
    string (the scan of [isIgnore] steps over empty entries). *)
Definition configured (b : builder) (ext : string) : Prop :=
  In ext (exts b) /\ ext <> "".

(** Normalisation as the specification words it: empty strings are
    discarded, the others get a leading ['.'] when they lack one. *)
Definition withDot (ext : string) : string :=
  match head ext with
  | Some c => if Ascii.eqb c "." then ext else "." ++ ext
  | None => ext
  end.

Definition nonEmpty (ext : string) : bool := negb (String.eqb ext "").

Definition spec_normalize (exts : list string) : list string :=
  map withDot (filter nonEmpty exts).

(** An event qualifies when it is past the CHMOD test and the path filter. *)
Definition qualifies (b : builder) (event : Event) : Prop :=
  (Z.land (Op event) Chmod =? Chmod) = false
  /\ isIgnore b (Name event) = false.

(** The calls that touch the child process. *)
Definition touchesChild (c : call) : bool :=
  match c with
  | CKill _ _ | CStartProcess _ _ | CWait _ _ => true
  | _ => false
  end.

Definition isStart (c : call) : bool :=
  match c with
  | CStartProcess _ _ => true
  | _ => false
  end.

Definition isGoBuild (c : call) : bool :=
  match c with
  | CGoBuild => true
  | _ => false
  end.

(** Number of builds fired in a history. *)
Definition builds (h : history) : nat := List.length (filter isGoBuild h).

(** A message gets past the CHMOD test and the path filter. *)
Definition passes (b : builder) (m : message) : bool :=
  match m with
  | OnEvents event =>
      negb (Z.land (Op event) Chmod =? Chmod)
      && negb (isIgnore b (Name event))
  | OnErrors _ => false
  end.

(** ** Sample environments

    Oracles and inputs on which the statements below are evaluated. *)

(** Every call succeeds; a started process gets the length of the history
    as its handle; the clock advances with the history. *)
Definition calm : oracle := {|
  goRun := fun _ _ => None;
  kill := fun _ _ => None;
  startProcess := fun h _ => inr (List.length h);
  wait := fun _ _ => None;
  now := fun h => 100 + Z.of_nat (List.length h)
|}.

(** The compiler fails. *)
Definition brokenBuild : oracle := {|
  goRun := fun _ _ => Some "exit status 2";
  kill := kill calm;
  startProcess := startProcess calm;
  wait := wait calm;
  now := now calm
|}.

(** The old process cannot be killed. *)
Definition stubborn : oracle := {|
  goRun := goRun calm;
  kill := fun _ _ => Some "os: process already finished";
  startProcess := startProcess calm;
  wait := wait calm;
  now := now calm
|}.

(** The clock shows 100 during the first turn of the loop and 105 after. *)
Definition twoInstants : oracle := {|
  goRun := goRun calm;
  kill := kill calm;
  startProcess := startProcess calm;
  wait := wait calm;
  now := fun h => if (List.length h <? 2)%nat then 100 else 105
|}.

(** The clock ticks between the two readings of the first turn: it shows
    100, then 101, and 102 from then on. *)
Definition ticking : oracle := {|
  goRun := goRun calm;
  kill := kill calm;
  startProcess := startProcess calm;
  wait := wait calm;
  now := fun h =>
    match h with
    | [] => 100
    | [_] => 101
    | _ => 102
    end
|}.

Definition proj : builder :=
  newBuilder unix "/home/u/proj" "" "" ["go"] [].

Definition running : builder :=
  {| exts := exts proj;
     appCmd := Some {| Path := "/home/u/proj/proj"; Process := Some 7%nat |};
     goCmdArgs := goCmdArgs proj |}.

Definition saved : Event := {| Name := "/home/u/proj/main.go"; Op := Write |}.
Definition touched : Event := {| Name := "/home/u/proj/main.go"; Op := Chmod |}.

(** ** Start-up

    What [newBuilder] and [watch] do before the loop runs: ask for the
    working directory, create the watcher and register the paths.  Each of
    the three can fail, and then the program exits with [os.Exit(2)].  The
    calls are recorded as above, in a history of their own; [os.Exit] ends
    the computation. *)

Module Startup.

(** The arguments [log] is given at start-up. *)
Inductive arg : Type :=
| AStr (s : string)
| AErr (e : error)
| APaths (paths : list string).

Inductive step : Type :=
| SLog (l : level) (args : list arg)          (* log(l, args...) *)
| SGetwd (res : error + string)               (* os.Getwd() *)
| SNewWatcher (res : option error)            (* fsnotify.NewWatcher() *)
| SAdd (path : string) (res : option error)   (* watcher.Add(path) *)
| SGo                                         (* go func() { for { ... } }() *)
| SExit (code : Z).                           (* os.Exit(code) *)

Record env : Type := {
  getwd : list step -> error + string;
  newWatcher : list step -> option error;
  add : list step -> string -> option error
}.

(** How a computation ends: it returns, or the process exits. *)
Inductive outcome (A : Type) : Type :=
| Returns (a : A)
| Exits (code : Z).
Arguments Returns {A} a.
Arguments Exits {A} code.

Definition S (A : Type) : Type := env -> list step -> outcome A * list step.

Definition ret {A : Type} (a : A) : S A := fun _ h => (Returns a, h).

Definition bind {A B : Type} (m : S A) (k : A -> S B) : S B :=
  fun e h =>
    match m e h with
    | (Returns a, h') => k a e h'
    | (Exits code, h') => (Exits code, h')
    end.

Declare Scope startup_scope.
Notation "x <- m ;; k" := (bind m (fun x => k))
  (at level 61, m at next level, right associativity) : startup_scope.
Notation "m ;; k" := (bind m (fun _ => k))
  (at level 61, right associativity) : startup_scope.
Local Open Scope startup_scope.

Definition Log (l : level) (args : list arg) : S unit :=
  fun _ h => (Returns tt, (h ++ [SLog l args])%list).

Definition Getwd : S (error + string) :=
  fun e h => let r := getwd e h in (Returns r, (h ++ [SGetwd r])%list).

Definition NewWatcher : S (option error) :=
  fun e h => let r := newWatcher e h in (Returns r, (h ++ [SNewWatcher r])%list).

Definition Add (path : string) : S (option error) :=
  fun e h => let r := add e h path in (Returns r, (h ++ [SAdd path r])%list).

Definition Go : S unit :=
  fun _ h => (Returns tt, (h ++ [SGo])%list).

Definition Exit {A : Type} (code : Z) : S A :=
  fun _ h => (Exits code, (h ++ [SExit code])%list).

(** Lines 152-157: the loop that registers the paths. *)
Fixpoint addPaths (paths : list string) : S unit :=
  match paths with
  | [] => ret tt
  | path :: rest =>
      err <- Add path ;;
      match err with
      | Some e => Log erro [AStr "watcher.Add:"; AErr e] ;; Exit 2
      | None => addPaths rest
      end
  end.

(** [watch], lines 140-159, up to the [go] statement that starts the loop. *)
Definition watch (paths : list string) : S unit :=
  Log info [AStr "初始化监视器..."] ;;
  err <- NewWatcher ;;
  match err with
  | Some e => Log erro [AErr e] ;; Exit 2
  | None => ret tt
  end ;;
  Log info [AStr "以下路径或是文件将被监视:"; APaths paths] ;;
  addPaths paths ;;
  Go.

(** [newBuilder] with its effects: lines 31-35, the builder of lines 37-75
    and the call [b.watch(append(paths, wd))]. *)
Definition newBuilder (pf : platform) (mainFiles outputName : string)
    (exts paths : list string) : S builder :=
  r <- Getwd ;;
  match r with
  | inl e =>
      Log erro [AStr "获取当前工作目录时，发生以下错误:"; AErr e] ;;
      Exit 2
  | inr wd =>
      let b := newBuilder pf wd mainFiles outputName exts paths in
      watch (paths ++ [wd])%list ;;
      ret b
  end.

End Startup.

(** The calls counted below. *)
Definition isGoRun (c : call) : bool :=
  match c with
  | CGoRun _ _ => true
  | _ => false
  end.

Definition isKill (c : call) : bool :=
  match c with
  | CKill _ _ => true
  | _ => false
  end.

Definition isNow (c : call) : bool :=
  match c with
  | CNow _ => true
  | _ => false
  end.

Definition count (f : call -> bool) (h : history) : nat :=
  List.length (filter f h).

(** The files a call names, for the source pattern [mainFiles] and the
    output [p]: [go build] gets exactly [build -o p], followed by
    [mainFiles] when that is not empty, and the process started is [p]. *)
Definition namesAsConfigured (mainFiles p : string) (c : call) : Prop :=
  match c with
  | CGoRun args _ =>
      args = (["build"; "-o"; p]
                ++ if String.eqb mainFiles "" then [] else [mainFiles])%list
  | CStartProcess path _ => path = p
  | _ => True
  end.

(** A path registered with the watcher. *)
Definition added (path : string) : Startup.step := Startup.SAdd path None.

Definition friendly : Startup.env := {|
  Startup.getwd := fun _ => inr "/home/u/proj";
  Startup.newWatcher := fun _ => None;
  Startup.add := fun _ _ => None
|}.

(** The directory [/gone] cannot be watched. *)
Definition oneMissing : Startup.env := {|
  Startup.getwd := fun _ => inr "/home/u/proj";
  Startup.newWatcher := fun _ => None;
  Startup.add := fun _ path =>
    if String.eqb path "/gone" then Some "no such file or directory" else None
|}.

(** Windows, for a given [filepath.Base]. *)
Definition windows (base : string -> string) : platform :=
  {| GOOS := "windows"; Separator := "\"; Base := base |}.

(** The clock stands still. *)
Definition frozen : oracle := {|
  goRun := goRun calm;
  kill := kill calm;
  startProcess := startProcess calm;
  wait := wait calm;
  now := fun _ => 100
|}.

(** The builder of [proj] with more extensions, some of them twice. *)
Definition projWeb : builder :=
  {| exts := [".html"; ".go"; ".css"; ".go"];
     appCmd := appCmd proj;
     goCmdArgs := goCmdArgs proj |}.

Definition rebuilt : Event := {| Name := "/home/u/proj/proj"; Op := Create |}.

(** Histories are built by appending on the right; this puts them back in
    the shape [h ++ [c1; ...; cn]]. *)
Ltac history := repeat rewrite <- app_assoc; simpl.

(** Every outcome the oracle can give to the calls of [build]. *)
Ltac outcomes :=
  repeat (match goal with
         | |- context [match goRun ?o ?h ?a with _ => _ end] =>
             destruct (goRun o h a) eqn:?
         | |- context [match kill ?o ?h ?p with _ => _ end] =>
             destruct (kill o h p) eqn:?
         | |- context [match startProcess ?o ?h ?p with _ => _ end] =>
             destruct (startProcess o h p) eqn:?
         | |- context [match wait ?o ?h ?p with _ => _ end] =>
             destruct (wait o h p) eqn:?
         end; simpl).

Ltac run_build :=
  unfold build, restart, killOld, launch, Cmd_Run, Cmd_Start,
    bind, Log, GoRun, Kill, StartProcess, Wait, ret; simpl.

(** The same for the histories of start-up. *)
Ltac steps := simpl; repeat rewrite <- app_assoc; simpl.

(** * Properties *)

(** ** Strings *)

Lemma len_zero (s : string) : (len s =? 0) = true <-> s = "".
Proof.
  unfold len. destruct s; cbn; split; intro H;
    reflexivity || discriminate.
Qed.

Lemma IndexByteFrom_contains (s : string) (c : ascii) (i : Z) :
  0 <= i -> (IndexByteFrom i s c <? 0) = negb (contains s c).
Proof.
  revert i. induction s as [|a s IH]; intros i Hi; simpl.
  - reflexivity.
  - destruct (Ascii.eqb a c); simpl.
    + apply Z.ltb_ge. exact Hi.
    + apply IH. lia.
Qed.

Lemma IndexByte_contains (s : string) (c : ascii) :
  (IndexByte s c <? 0) = negb (contains s c).
Proof. apply IndexByteFrom_contains. lia. Qed.

(** ** Extension normalisation *)

Lemma normalizeExts_acc (exts acc : list string) :
  normalizeExts acc exts = (acc ++ spec_normalize exts)%list.
Proof.
  revert acc. induction exts as [|ext rest IH]; intro acc; simpl.
  - now rewrite app_nil_r.
  - unfold spec_normalize. destruct ext as [|c ext']; simpl.
    + apply IH.
    + rewrite IH. unfold spec_normalize, withDot. simpl.
      now rewrite <- app_assoc.
Qed.

Lemma withDot_dotted (ext : string) :
  ext <> "" -> head (withDot ext) = Some "."%char.
Proof.
  destruct ext as [|c ext']; [congruence | intros _].
  unfold withDot; simpl.
  destruct (Ascii.eqb c ".") eqn:E; simpl.
  - apply Ascii.eqb_eq in E. now subst.
  - reflexivity.
Qed.

Lemma nonEmpty_true (ext : string) : nonEmpty ext = true <-> ext <> "".
Proof.
  unfold nonEmpty. rewrite negb_true_iff. split.
  - intros H E. apply String.eqb_neq in H. contradiction.
  - intro H. now apply String.eqb_neq.
Qed.

Lemma spec_normalize_dotted (exts : list string) :
  Forall (fun ext => head ext = Some "."%char) (spec_normalize exts).
Proof.
  unfold spec_normalize. apply Forall_forall. intros e He.
  apply in_map_iff in He. destruct He as [x [<- Hx]].
  apply filter_In in Hx. destruct Hx as [_ Hx].
  apply withDot_dotted. now apply nonEmpty_true.
Qed.

(** C9: what [newBuilder] stores in [b.exts] is the supplied list without
    its empty strings, in the same order, each entry unchanged when it starts
    with ['.'] and with ['.'] put in front otherwise; so every stored
    extension starts with ['.']. *)
Theorem newBuilder_exts_normalized
    (pf : platform) (wd mainFiles outputName : string)
    (exts0 paths : list string) :
  let b := newBuilder pf wd mainFiles outputName exts0 paths in
  exts b = spec_normalize exts0
  /\ Forall (fun ext => head ext = Some "."%char) (exts b).
Proof.
  simpl. rewrite normalizeExts_acc. simpl.
  split; [reflexivity | apply spec_normalize_dotted].
Qed.

(** ** The path filter *)

Lemma scanExts_match (exts : list string) (path ext : string) :
  In ext exts -> ext <> "" -> HasSuffix path ext = true ->
  scanExts exts path = false.
Proof.
  intros Hin Hne Hsuf. induction exts as [|e rest IH]; simpl.
  - contradiction.
  - destruct (len e =? 0) eqn:El.
    + apply len_zero in El. destruct Hin as [-> | Hin]; [contradiction|].
      now apply IH.
    + destruct (String.eqb e "*"); [reflexivity|].
      destruct (HasSuffix path e) eqn:Es; [reflexivity|].
      destruct Hin as [-> | Hin]; [congruence | now apply IH].
Qed.

Lemma scanExts_no_match (exts : list string) (path : string) :
  (forall ext, In ext exts -> ext <> "" ->
               ext <> "*" /\ HasSuffix path ext = false) ->
  scanExts exts path = true.
Proof.
  induction exts as [|e rest IH]; intro H; simpl.
  - reflexivity.
  - assert (Hrest : scanExts rest path = true).
    { apply IH. intros ext Hin. apply H. now right. }
    destruct (len e =? 0) eqn:El; [exact Hrest|].
    assert (Hne : e <> "").
    { intro E. apply len_zero in E. congruence. }
    destruct (H e (or_introl eq_refl) Hne) as [Hstar Hsuf].
    apply String.eqb_neq in Hstar. rewrite Hstar, Hsuf. exact Hrest.
Qed.

Lemma isIgnore_other (b : builder) (path : string) :
  outputPath b <> Some path -> isIgnore b path = scanExts (exts b) path.
Proof.
  unfold outputPath, isIgnore. destruct (appCmd b) as [c|]; [|reflexivity].
  intro H. destruct (String.eqb (Path c) path) eqn:E; [|reflexivity].
  apply String.eqb_eq in E. congruence.
Qed.

Lemma isIgnore_no_match (b : builder) (path : string) :
  (forall ext, configured b ext ->
               ext <> "*" /\ HasSuffix path ext = false) ->
  isIgnore b path = true.
Proof.
  intro H. unfold isIgnore.
  assert (Hs : scanExts (exts b) path = true).
  { apply scanExts_no_match. intros ext Hin Hne. apply H. now split. }
  rewrite Hs. destruct (appCmd b) as [c|]; [|reflexivity].
  now destruct (String.eqb (Path c) path).
Qed.

(** C4: [isIgnore] is an allow list.  The build-output path is ignored
    whatever its extension; any other path that ends in a configured
    extension is not ignored; a path that ends in no configured extension,
    when no configured extension is the wildcard, is ignored; so with no
    extension at all every path is ignored. *)
Theorem isIgnore_allow_list (b : builder) (path : string) :
  (outputPath b = Some path -> isIgnore b path = true)
  /\ (outputPath b <> Some path ->
      (exists ext, configured b ext /\ HasSuffix path ext = true) ->
      isIgnore b path = false)
  /\ ((forall ext, configured b ext ->
                   ext <> "*" /\ HasSuffix path ext = false) ->
      isIgnore b path = true)
  /\ (exts b = [] -> isIgnore b path = true).
Proof.
  repeat split.
  - unfold outputPath, isIgnore. destruct (appCmd b) as [c|]; [|discriminate].
    intro H. injection H as H. apply String.eqb_eq in H. now rewrite H.
  - intros Hout [ext [[Hin Hne] Hsuf]].
    rewrite isIgnore_other by exact Hout.
    now apply scanExts_match with ext.
  - apply isIgnore_no_match.
  - intro He. apply isIgnore_no_match. intros ext [Hin _]. rewrite He in Hin. contradiction.
Qed.

(** ** The wildcard *)

Lemma normalized_no_wildcard (exts0 : list string) :
  ~ In "*" (normalizeExts [] exts0).
Proof.
  intro H. rewrite normalizeExts_acc in H. simpl in H.
  pose proof (spec_normalize_dotted exts0) as F.
  rewrite Forall_forall in F. specialize (F _ H). discriminate.
Qed.

(** The wildcard test of [isIgnore] never succeeds on a builder made by
    [newBuilder]: for it, a path other than the output is kept exactly when
    it ends in one of the stored, dotted extensions. *)
Lemma newBuilder_wildcard_dead
    (pf : platform) (wd mainFiles outputName path : string)
    (exts0 paths : list string) :
  let b := newBuilder pf wd mainFiles outputName exts0 paths in
  (forall ext, In ext (exts b) -> HasSuffix path ext = false) ->
  isIgnore b path = true.
Proof.
  intros b H. apply isIgnore_no_match. intros ext [Hin _]. split.
  - intro E. subst ext. now apply (normalized_no_wildcard exts0).
  - now apply H.
Qed.

(** C2: the extension list ["*"] is stored as [".*"], so the wildcard is
    lost: a source file that is not the build output is ignored. *)
Theorem wildcard_lost_by_normalization :
  let b := newBuilder unix "/home/u/proj" "" "" ["*"] [] in
  exts b = [".*"]
  /\ outputPath b = Some "/home/u/proj/proj"
  /\ isIgnore b "/home/u/proj/main.go" = true.
Proof. repeat split. Qed.

(** ** The name of the output *)

(** On Unix the two tests of line 44 are the same test, and the directory is
    put in front exactly when the name holds no separator. *)
Lemma resolveOutputName_unix (wd outputName : string) :
  let name := if String.eqb outputName "" then Unix.Base wd else outputName in
  resolveOutputName unix wd outputName =
  if contains name "/" then name else wd ++ "/" ++ name.
Proof.
  unfold resolveOutputName. simpl.
  assert (E : (len outputName =? 0) = String.eqb outputName "").
  { destruct outputName; reflexivity. }
  rewrite E. set (name := if String.eqb outputName "" then _ else _).
  rewrite IndexByte_contains. now destruct (contains name "/").
Qed.

Lemma contains_app (s1 s2 : string) (c : ascii) :
  contains (s1 ++ s2) c = contains s1 c || contains s2 c.
Proof.
  induction s1 as [|a s1 IH]; simpl.
  - reflexivity.
  - now rewrite IH, orb_assoc.
Qed.

(** Whatever the platform, the resolved name holds a ['/'] or the
    platform's separator, so [exec.Command] takes it as a path. *)
Lemma resolveOutputName_separator (pf : platform) (wd outputName : string) :
  let name := resolveOutputName pf wd outputName in
  contains name "/" || contains name (Separator pf) = true.
Proof.
  unfold resolveOutputName.
  set (n1 := if len outputName =? 0 then _ else _).
  set (n2 := if String.eqb (GOOS pf) "windows" && _ then _ else _).
  rewrite !IndexByte_contains.
  destruct (contains n2 "/") eqn:E1; simpl.
  - destruct (contains n2 (Separator pf)) eqn:E2; simpl.
    + now rewrite E1.
    + rewrite !contains_app. simpl. rewrite Ascii.eqb_refl.
      now rewrite !orb_true_r.
  - rewrite !contains_app. simpl. rewrite Ascii.eqb_refl.
    now rewrite !orb_true_r.
Qed.

(** C7: on Windows the directory is put in front of a name that holds path
    separators, here an absolute path, because the test of line 44 asks for
    one separator of each kind. *)
Theorem resolveOutputName_windows_path (base : string -> string) :
  let windows := {| GOOS := "windows"; Separator := "\"; Base := base |} in
  contains "C:\out\app.exe" (Separator windows) = true
  /\ resolveOutputName windows "C:\proj" "C:\out\app.exe"
     = "C:\proj\C:\out\app.exe".
Proof. split; reflexivity. Qed.

(** ** The monad *)

Lemma int64_small (z : Z) : - 2 ^ 63 <= z <= max_int64 -> int64 z = z.
Proof.
  unfold int64, max_int64. intro H.
  rewrite Z.mod_small; lia.
Qed.

Lemma bind_run {A B : Type} (m : M A) (k : A -> M B) (o : oracle)
    (h h' : history) (a : A) :
  m o h = (a, h') -> bind m k o h = k a o h'.
Proof. unfold bind. now intros ->. Qed.

(** ** [build] *)

(** C6: when [go build] fails, [build] logs the error and returns; nothing
    is done to the child process (no kill, no start, no wait) and the
    builder, its command included, is what it was. *)
Theorem build_failure_no_restart
    (o : oracle) (b : builder) (h : history) (e : error) :
  goRun o (h ++ [CLog info [VStr "编译代码..."]])%list (goCmdArgs b) = Some e ->
  let done := [CLog info [VStr "编译代码..."];
               CGoRun (goCmdArgs b) (Some e);
               CLog erro [VStr "编译失败:"; VErr e]] in
  build b o h = (b, (h ++ done)%list)
  /\ existsb touchesChild done = false.
Proof.
  intro H. split; [|reflexivity].
  unfold build, bind, Log, GoRun, ret. rewrite H. now history.
Qed.

(** The kill block, for a command with a process, whatever [Kill] says. *)
Lemma killOld_live (o : oracle) (c : Cmd) (p : pid) (h : history) :
  Process c = Some p ->
  let r := kill o (h ++ [CLog info [VStr "中止旧进程..."]])%list p in
  killOld c o h =
  (tt, (h ++ [CLog info [VStr "中止旧进程..."]; CKill p r]
          ++ match r with
             | Some e => [CLog erro [VStr "kill:"; VErr e]]
             | None => []
             end)%list).
Proof.
  intro H. unfold killOld, bind, Log, Kill, ret. rewrite H. simpl.
  destruct (kill o _ p); now history.
Qed.

(** ** [restart] *)

Lemma Cmd_Run_started (o : oracle) (c : Cmd) (p : pid) (h : history) :
  Process c = Some p ->
  Cmd_Run c o h = ((c, Some "exec: already started"), h).
Proof.
  intro H. unfold Cmd_Run, Cmd_Start, bind, ret. now rewrite H.
Qed.

Lemma launch_started (o : oracle) (b : builder) (c : Cmd) (p : pid)
    (h : history) :
  appCmd b = Some c -> Process c = Some p ->
  launch b c o h =
  (b, (h ++ [CLog erro [VStr "启动进程时出错:";
                        VErr "exec: already started"]])%list).
Proof.
  intros Hc Hp. unfold launch.
  rewrite (bind_run _ _ o h h _ (Cmd_Run_started o c p h Hp)).
  unfold bind, Log, ret. simpl. f_equal.
  destruct b; simpl in *. now subst.
Qed.

(** Once the command has a process, a [restart] asks the system for no new
    one, whatever the environment answers, and leaves the builder as it is:
    so does every later [restart]. *)
Lemma restart_live_starts_nothing (o : oracle) (b : builder) (c : Cmd)
    (p : pid) (h : history) :
  appCmd b = Some c -> Process c = Some p ->
  exists done,
    restart b o h = (b, (h ++ done)%list) /\ existsb isStart done = false.
Proof.
  intros Hc Hp. unfold restart. rewrite Hc.
  rewrite (bind_run (killOld c) (fun _ => launch b c) o h _ tt
             (killOld_live o c p h Hp)).
  rewrite (launch_started o b c p _ Hc Hp).
  destruct (kill o _ p) as [e|]; eexists; split;
    try (history; reflexivity); reflexivity.
Qed.

(** [restart] on a command without a process: no kill, one request for a
    process; the failure of the start, or of the wait, is logged. *)
Lemma restart_unstarted (o : oracle) (b : builder) (c : Cmd) (h : history) :
  appCmd b = Some c -> Process c = None ->
  restart b o h =
  match startProcess o h (Path c) with
  | inl e =>
      (b, (h ++ [CStartProcess (Path c) (inl e);
                 CLog erro [VStr "启动进程时出错:"; VErr e]])%list)
  | inr p =>
      let w := wait o (h ++ [CStartProcess (Path c) (inr p)])%list p in
      ({| exts := exts b;
          appCmd := Some {| Path := Path c; Process := Some p |};
          goCmdArgs := goCmdArgs b |},
       (h ++ [CStartProcess (Path c) (inr p); CWait p w]
          ++ match w with
             | Some e => [CLog erro [VStr "启动进程时出错:"; VErr e]]
             | None => []
             end)%list)
  end.
Proof.
  intros Hc Hp. run_build. rewrite Hc, Hp. simpl.
  destruct (startProcess o h (Path c)) as [e | p]; simpl.
  - history. f_equal. destruct b, c; simpl in *. now subst.
  - destruct (wait o _ p); simpl; now history.
Qed.

(** [restart] on a command with a process: the kill, its error if any,
    then [Run], which [os/exec] refuses for a command already started. *)
Lemma restart_started (o : oracle) (b : builder) (c : Cmd) (p : pid)
    (h : history) :
  appCmd b = Some c -> Process c = Some p ->
  let r := kill o (h ++ [CLog info [VStr "中止旧进程..."]])%list p in
  restart b o h =
  (b, (h ++ [CLog info [VStr "中止旧进程..."]; CKill p r]
         ++ match r with
            | Some e => [CLog erro [VStr "kill:"; VErr e]]
            | None => []
            end
         ++ [CLog erro [VStr "启动进程时出错:";
                        VErr "exec: already started"]])%list).
Proof.
  intros Hc Hp r. unfold restart. rewrite Hc.
  rewrite (bind_run (killOld c) (fun _ => launch b c) o h _ tt
             (killOld_live o c p h Hp)).
  rewrite (launch_started o b c p _ Hc Hp). fold r.
  destruct r; now history.
Qed.

(** C5: after a successful [go build], [build] goes on with the calls of
    exactly one [restart].  When the command has no process, nothing is
    killed and [b.appCmd.Run()] asks the system for one.  When it has one,
    the kill is asked for and, whether or not it fails (the failure is only
    logged), [b.appCmd.Run()] is called next and what it answers is logged. *)
Theorem build_success_one_restart
    (o : oracle) (b : builder) (h : history) :
  goRun o (h ++ [CLog info [VStr "编译代码..."]])%list (goCmdArgs b) = None ->
  let h1 := (h ++ [CLog info [VStr "编译代码..."];
                   CGoRun (goCmdArgs b) None;
                   CLog succ [VStr "编译成功!"]])%list in
  build b o h = restart b o h1
  /\ (forall c, appCmd b = Some c -> Process c = None ->
      build b o h =
      match startProcess o h1 (Path c) with
      | inl e =>
          (b, (h1 ++ [CStartProcess (Path c) (inl e);
                      CLog erro [VStr "启动进程时出错:"; VErr e]])%list)
      | inr p =>
          let w := wait o (h1 ++ [CStartProcess (Path c) (inr p)])%list p in
          ({| exts := exts b;
              appCmd := Some {| Path := Path c; Process := Some p |};
              goCmdArgs := goCmdArgs b |},
           (h1 ++ [CStartProcess (Path c) (inr p); CWait p w]
               ++ match w with
                  | Some e => [CLog erro [VStr "启动进程时出错:"; VErr e]]
                  | None => []
                  end)%list)
      end)
  /\ (forall c p, appCmd b = Some c -> Process c = Some p ->
      let r := kill o (h1 ++ [CLog info [VStr "中止旧进程..."]])%list p in
      build b o h =
      (b, (h1 ++ [CLog info [VStr "中止旧进程..."]; CKill p r]
              ++ match r with
                 | Some e => [CLog erro [VStr "kill:"; VErr e]]
                 | None => []
                 end
              ++ [CLog erro [VStr "启动进程时出错:";
                             VErr "exec: already started"]])%list)).
Proof.
  intros H h1.
  assert (E : build b o h = restart b o h1).
  { unfold build, bind, Log, GoRun, ret. rewrite H. subst h1. now history. }
  split; [exact E|]. split.
  - intros c Hc Hp. rewrite E. exact (restart_unstarted o b c h1 Hc Hp).
  - intros c p Hc Hp. rewrite E. exact (restart_started o b c p h1 Hc Hp).
Qed.

(** C1: two calls of [restart] in a row, in an environment where every
    call succeeds.  The first starts the program; the second kills that
    process and then starts nothing: [Run] answers "exec: already started". *)
Theorem restart_twice_starts_once :
  let (b1, h1) := restart proj calm [] in
  let (b2, h2) := restart b1 calm h1 in
  h1 = [CStartProcess "/home/u/proj/proj" (inr 0%nat); CWait 0%nat None]
  /\ h2 = (h1 ++ [CLog info [VStr "中止旧进程..."];
                  CKill 0%nat None;
                  CLog erro [VStr "启动进程时出错:";
                             VErr "exec: already started"]])%list
  /\ existsb isStart (skipn (List.length h1) h2) = false.
Proof. vm_compute. repeat split. Qed.

(** ** The watch loop *)

(** C8: an event whose operation has the CHMOD bit, a change of
    permissions alone among them, is logged as ignored and nothing else
    happens: the clock is not read, no build is fired, [buildTime] is
    unchanged, and the builder (hence the path filter) plays no part. *)
Theorem chmod_event_discarded
    (o : oracle) (b : builder) (buildTime : Z) (event : Event) (h : history) :
  Z.land (Op event) Chmod = Chmod ->
  let h' := (h ++ [CLog ignore [VStr "watcher.Events:忽略CHMOD事件:";
                                VEvent event]])%list in
  onEvent b buildTime event o h = (buildTime, h')
  /\ builds h' = builds h.
Proof.
  intros H h'. split.
  - unfold onEvent. apply Z.eqb_eq in H. now rewrite H.
  - subst h'. unfold builds. rewrite filter_app. simpl.
    now rewrite app_nil_r.
Qed.

Lemma onEvent_fires (o : oracle) (b : builder) (buildTime : Z)
    (event : Event) (h : history) (t t' : Z) :
  qualifies b event ->
  int64 (now o h) = t -> int64 (now o (h ++ [CNow t])%list) = t' ->
  1 < sub64 t buildTime ->
  onEvent b buildTime event o h =
  (t', (h ++ [CNow t; CNow t';
              CLog info [VStr "watcher.Events:触发编译事件:"; VEvent event];
              CGoBuild])%list).
Proof.
  intros [Hc Hi] Ht Ht' Hgo. unfold onEvent. rewrite Hc, Hi.
  unfold bind, Now, Log, GoBuild, ret. rewrite Ht.
  apply Z.leb_gt in Hgo. rewrite Hgo, Ht'. now history.
Qed.

Lemma onEvent_suppressed (o : oracle) (b : builder) (buildTime : Z)
    (event : Event) (h : history) (t : Z) :
  qualifies b event ->
  int64 (now o h) = t ->
  sub64 t buildTime <= 1 ->
  onEvent b buildTime event o h =
  (buildTime,
   (h ++ [CNow t;
          CLog ignore [VStr "watcher.Events:该监控事件被忽略:"; VEvent event]])%list).
Proof.
  intros [Hc Hi] Ht Hno. unfold onEvent. rewrite Hc, Hi.
  unfold bind, Now, Log, ret. rewrite Ht.
  apply Z.leb_le in Hno. rewrite Hno. now history.
Qed.

(** C3: two qualifying events, in whole seconds as [time.Now().Unix()]
    gives them.  The first is tested at the reading [t], is accepted, and
    [buildTime] becomes [t'], the reading taken next in the same turn.  The
    second, tested at the reading [u] with [buildTime] as the first left it,
    is suppressed when [u - t' <= 1]; when [u - t' > 1] it fires a build and
    [buildTime] becomes the reading taken then. *)
Theorem debounce_by_stored_reading
    (o : oracle) (b : builder) (buildTime : Z) (e1 e2 : Event)
    (h : history) (t t' : Z) :
  qualifies b e1 -> qualifies b e2 ->
  0 <= t <= max_int64 -> 0 <= t' <= max_int64 ->
  now o h = t -> now o (h ++ [CNow t])%list = t' ->
  1 < sub64 t buildTime ->
  onEvent b buildTime e1 o h =
    (t', (h ++ [CNow t; CNow t';
                CLog info [VStr "watcher.Events:触发编译事件:"; VEvent e1];
                CGoBuild])%list)
  /\ forall (h2 : history) (u u' : Z),
      0 <= u <= max_int64 -> 0 <= u' <= max_int64 ->
      now o h2 = u -> now o (h2 ++ [CNow u])%list = u' ->
      (u - t' <= 1 ->
       onEvent b t' e2 o h2 =
         (t', (h2 ++ [CNow u;
                      CLog ignore [VStr "watcher.Events:该监控事件被忽略:";
                                   VEvent e2]])%list))
      /\ (1 < u - t' ->
          onEvent b t' e2 o h2 =
            (u',
             (h2 ++ [CNow u; CNow u';
                     CLog info [VStr "watcher.Events:触发编译事件:"; VEvent e2];
                     CGoBuild])%list)).
Proof.
  intros Q1 Q2 Rt Rt' N1 N2 Hacc.
  assert (I : forall z, 0 <= z <= max_int64 -> int64 z = z).
  { intros z Hz. apply int64_small. lia. }
  split.
  - apply onEvent_fires; [exact Q1 | | | exact Hacc].
    + now rewrite N1, I.
    + now rewrite N2, I.
  - intros h2 u u' Ru Ru' M1 M2.
    assert (Sd : sub64 u t' = u - t').
    { unfold sub64. apply int64_small. unfold max_int64 in *. lia. }
    split; intro Hd.
    + apply onEvent_suppressed; [exact Q2 | now rewrite M1, I | lia].
    + apply onEvent_fires; [exact Q2 | | | lia].
      * now rewrite M1, I.
      * now rewrite M2, I.
Qed.

(** C3, as it was claimed: the first event is handled at 100 and fires
    a build; the second is handled at 102, two seconds later, and fires
    none, because the clock had moved to 101 when [buildTime] was stored. *)
Lemma debounce_two_seconds_apart_suppressed :
  let first := onEvent proj 0 saved ticking [] in
  let second := onEvent proj (fst first) saved ticking (snd first) in
  qualifies proj saved
  /\ now ticking [] = 100
  /\ builds (snd first) = 1%nat
  /\ now ticking (snd first) = 102
  /\ 1 < 102 - 100
  /\ fst second = fst first
  /\ builds (snd second) = 1%nat.
Proof. vm_compute. repeat split; reflexivity. Qed.

Lemma builds_app (h l : history) : builds (h ++ l)%list = (builds h + builds l)%nat.
Proof. unfold builds. now rewrite filter_app, length_app. Qed.

Lemma watchLoop_app (o : oracle) (b : builder) (l1 l2 : list message)
    (buildTime : Z) (h : history) :
  watchLoop b buildTime (l1 ++ l2)%list o h =
  watchLoop b (fst (watchLoop b buildTime l1 o h)) l2
            o (snd (watchLoop b buildTime l1 o h)).
Proof.
  revert buildTime h. induction l1 as [|m l1 IH]; intros buildTime h.
  - reflexivity.
  - destruct m as [event | err]; simpl; unfold bind.
    + destruct (onEvent b buildTime event o h) as [bt' h']. apply IH.
    + unfold Log. apply IH.
Qed.

Lemma onEvent_blocked (o : oracle) (b : builder) (buildTime : Z)
    (event : Event) (h : history) :
  passes b (OnEvents event) = false ->
  fst (onEvent b buildTime event o h) = buildTime
  /\ builds (snd (onEvent b buildTime event o h)) = builds h.
Proof.
  simpl. intro H. unfold onEvent.
  destruct (Z.land (Op event) Chmod =? Chmod); simpl in H.
  - unfold bind, Log, ret. simpl. rewrite builds_app. simpl. split; [easy | apply Nat.add_0_r].
  - destruct (isIgnore b (Name event)); [|discriminate].
    unfold bind, Log, ret. simpl. rewrite builds_app. simpl. split; [easy | apply Nat.add_0_r].
Qed.

(** Messages that do not get past the two filters leave [buildTime] alone
    and fire nothing. *)
Lemma watchLoop_quiet (o : oracle) (b : builder) (pre : list message) :
  Forall (fun m => passes b m = false) pre ->
  forall (buildTime : Z) (h : history),
    fst (watchLoop b buildTime pre o h) = buildTime
    /\ builds (snd (watchLoop b buildTime pre o h)) = builds h.
Proof.
  induction 1 as [|m pre Hm Hpre IH]; intros buildTime h.
  - now split.
  - destruct m as [event | err]; simpl; unfold bind.
    + destruct (onEvent_blocked o b buildTime event h Hm) as [E1 E2].
      destruct (onEvent b buildTime event o h) as [bt' h']. simpl in *.
      subst bt'. rewrite <- E2. apply IH.
    + unfold Log.
      destruct (IH buildTime (h ++ [CLog warn [VStr "watcher.Errors"; VErr err]])%list)
        as [E1 E2].
      split; [exact E1|]. rewrite E2, builds_app. apply Nat.add_0_r.
Qed.

(** C10: the loop starts with [buildTime = 0]; after any number of
    messages that are errors, CHMOD events or filtered paths, the first
    event that qualifies fires a build, as long as the clock shows more
    than 1, and no build was fired before it. *)
Theorem first_qualifying_event_fires
    (o : oracle) (b : builder) (pre : list message) (event : Event)
    (h : history) :
  (forall h', 1 < now o h' <= max_int64) ->
  Forall (fun m => passes b m = false) pre ->
  qualifies b event ->
  let h1 := snd (watchLoop b 0 pre o h) in
  let t := now o h1 in
  let t' := now o (h1 ++ [CNow t])%list in
  builds h1 = builds h
  /\ watch b (pre ++ [OnEvents event])%list o h =
     (t', (h1 ++ [CNow t; CNow t';
                  CLog info [VStr "watcher.Events:触发编译事件:"; VEvent event];
                  CGoBuild])%list).
Proof.
  intros Hclock Hpre Hq h1 t t'.
  destruct (watchLoop_quiet o b pre Hpre 0 h) as [E1 E2].
  split; [exact E2|].
  unfold watch. rewrite watchLoop_app, E1. fold h1. simpl.
  unfold bind at 1.
  assert (It : forall k, int64 (now o k) = now o k).
  { intro k. apply int64_small. specialize (Hclock k). lia. }
  rewrite (onEvent_fires o b 0 event h1 t t' Hq (It _) (It _)).
  - reflexivity.
  - unfold sub64. rewrite Z.sub_0_r. unfold t. rewrite It.
    apply (Hclock h1).
Qed.

(** * The statements at sample inputs *)

Lemma isIgnore_allow_list_witness :
  isIgnore proj "/home/u/proj/proj" = true
  /\ isIgnore proj "/home/u/proj/main.go" = false
  /\ isIgnore proj "/home/u/proj/README.md" = true.
Proof.
  split; [|split].
  - apply (proj1 (isIgnore_allow_list proj "/home/u/proj/proj")).
    reflexivity.
  - apply (proj1 (proj2 (isIgnore_allow_list proj "/home/u/proj/main.go"))).
    + vm_compute. discriminate.
    + exists ".go". split; [split|].
      * vm_compute. now left.
      * discriminate.
      * reflexivity.
  - apply (proj1 (proj2 (proj2
             (isIgnore_allow_list proj "/home/u/proj/README.md")))).
    intros ext [Hin _]. vm_compute in Hin. destruct Hin as [<- | []].
    split; [discriminate | reflexivity].
Defined.

Lemma build_failure_no_restart_witness :
  goRun brokenBuild [CLog info [VStr "编译代码..."]] (goCmdArgs running)
    = Some "exit status 2"
  /\ build running brokenBuild [] =
     (running,
      [CLog info [VStr "编译代码..."];
       CGoRun ["build"; "-o"; "/home/u/proj/proj"] (Some "exit status 2");
       CLog erro [VStr "编译失败:"; VErr "exit status 2"]]).
Proof.
  split; [reflexivity|].
  exact (proj1 (build_failure_no_restart brokenBuild running []
                  "exit status 2" eq_refl)).
Defined.

Lemma build_success_one_restart_witness :
  goRun stubborn [CLog info [VStr "编译代码..."]] (goCmdArgs running) = None
  /\ build running stubborn [] =
     (running,
      [CLog info [VStr "编译代码..."];
       CGoRun ["build"; "-o"; "/home/u/proj/proj"] None;
       CLog succ [VStr "编译成功!"];
       CLog info [VStr "中止旧进程..."];
       CKill 7%nat (Some "os: process already finished");
       CLog erro [VStr "kill:"; VErr "os: process already finished"];
       CLog erro [VStr "启动进程时出错:"; VErr "exec: already started"]])
  /\ build proj stubborn [] =
     ({| exts := [".go"];
         appCmd := Some {| Path := "/home/u/proj/proj"; Process := Some 3%nat |};
         goCmdArgs := ["build"; "-o"; "/home/u/proj/proj"] |},
      [CLog info [VStr "编译代码..."];
       CGoRun ["build"; "-o"; "/home/u/proj/proj"] None;
       CLog succ [VStr "编译成功!"];
       CStartProcess "/home/u/proj/proj" (inr 3%nat);
       CWait 3%nat None]).
Proof.
  split; [reflexivity|]. split.
  - exact (proj2 (proj2 (build_success_one_restart stubborn running []
                           eq_refl))
             {| Path := "/home/u/proj/proj"; Process := Some 7%nat |} 7%nat
             eq_refl eq_refl).
  - exact (proj1 (proj2 (build_success_one_restart stubborn proj [] eq_refl))
             (Command "/home/u/proj/proj") eq_refl eq_refl).
Defined.

Lemma chmod_event_discarded_witness :
  Z.land (Op touched) Chmod = Chmod
  /\ onEvent proj 42 touched calm [] =
     (42, [CLog ignore [VStr "watcher.Events:忽略CHMOD事件:"; VEvent touched]]).
Proof.
  split; [reflexivity|].
  exact (proj1 (chmod_event_discarded calm proj 42 touched [] eq_refl)).
Defined.

Lemma qualifies_saved : qualifies proj saved.
Proof. split; reflexivity. Defined.

Lemma debounce_by_stored_reading_witness :
  let fired := [CNow 100; CNow 101;
                CLog info [VStr "watcher.Events:触发编译事件:"; VEvent saved];
                CGoBuild] in
  let fired' := [CNow 100; CNow 100;
                 CLog info [VStr "watcher.Events:触发编译事件:"; VEvent saved];
                 CGoBuild] in
  qualifies proj saved
  /\ 1 < sub64 100 0
  /\ onEvent proj 0 saved ticking [] = (101, fired)
  /\ onEvent proj 101 saved ticking fired =
     (101, (fired ++ [CNow 102;
                      CLog ignore [VStr "watcher.Events:该监控事件被忽略:";
                                   VEvent saved]])%list)
  /\ onEvent proj 0 saved twoInstants [] = (100, fired')
  /\ onEvent proj 100 saved twoInstants fired' =
     (105, (fired' ++ [CNow 105; CNow 105;
                       CLog info [VStr "watcher.Events:触发编译事件:";
                                  VEvent saved];
                       CGoBuild])%list).
Proof.
  intros fired fired'.
  assert (Hacc : 1 < sub64 100 0) by reflexivity.
  assert (R : forall z, 0 <= z <= 200 -> 0 <= z <= max_int64)
    by (intros z Hz; unfold max_int64; lia).
  destruct (debounce_by_stored_reading ticking proj 0 saved saved [] 100 101
              qualifies_saved qualifies_saved (R 100 ltac:(lia))
              (R 101 ltac:(lia)) eq_refl eq_refl Hacc) as [E1 E2].
  destruct (debounce_by_stored_reading twoInstants proj 0 saved saved [] 100
              100 qualifies_saved qualifies_saved (R 100 ltac:(lia))
              (R 100 ltac:(lia)) eq_refl eq_refl Hacc) as [F1 F2].
  split; [exact qualifies_saved|]. split; [exact Hacc|].
  split; [exact E1|]. split.
  - apply (proj1 (E2 fired 102 102 (R 102 ltac:(lia)) (R 102 ltac:(lia))
                    eq_refl eq_refl)).
    lia.
  - split; [exact F1|].
    apply (proj2 (F2 fired' 105 105 (R 105 ltac:(lia)) (R 105 ltac:(lia))
                    eq_refl eq_refl)).
    lia.
Defined.

Lemma first_qualifying_event_fires_witness :
  (forall h', 1 < now twoInstants h' <= max_int64)
  /\ Forall (fun m => passes proj m = false)
            [OnErrors "too many open files"; OnEvents touched]
  /\ qualifies proj saved
  /\ watch proj [OnErrors "too many open files"; OnEvents touched;
                 OnEvents saved] twoInstants [] =
     (105,
      [CLog warn [VStr "watcher.Errors"; VErr "too many open files"];
       CLog ignore [VStr "watcher.Events:忽略CHMOD事件:"; VEvent touched];
       CNow 105; CNow 105;
       CLog info [VStr "watcher.Events:触发编译事件:"; VEvent saved];
       CGoBuild]).
Proof.
  assert (Hclock : forall h', 1 < now twoInstants h' <= max_int64).
  { intro h'. unfold max_int64. simpl.
    destruct (List.length h' <? 2)%nat; lia. }
  assert (Hpre : Forall (fun m => passes proj m = false)
                   [OnErrors "too many open files"; OnEvents touched]).
  { repeat constructor. }
  split; [exact Hclock|]. split; [exact Hpre|].
  split; [exact qualifies_saved|].
  exact (proj2 (first_qualifying_event_fires twoInstants proj
                    [OnErrors "too many open files"; OnEvents touched]
                    saved [] Hclock Hpre qualifies_saved)).
Defined.

(** * Further properties *)

(** ** Suffixes *)

Lemma drop_append (pre s : string) : drop (String.length pre) (pre ++ s) = s.
Proof. induction pre as [|a pre IH]; simpl; [reflexivity | exact IH]. Qed.

Lemma append_length (s1 s2 : string) :
  String.length (s1 ++ s2) = (String.length s1 + String.length s2)%nat.
Proof. induction s1 as [|a s1 IH]; simpl; [reflexivity | now rewrite IH]. Qed.

Lemma append_assoc' (s1 s2 s3 : string) : (s1 ++ s2) ++ s3 = s1 ++ (s2 ++ s3).
Proof. induction s1 as [|a s1 IH]; simpl; [reflexivity | now rewrite IH]. Qed.

Lemma HasSuffix_append (pre suffix : string) :
  HasSuffix (pre ++ suffix) suffix = true.
Proof.
  unfold HasSuffix, len. rewrite append_length.
  replace (String.length pre + String.length suffix - String.length suffix)%nat
    with (String.length pre) by lia.
  rewrite drop_append, String.eqb_refl, andb_true_r.
  apply Z.leb_le. lia.
Qed.

Lemma drop_split (n : nat) (s : string) :
  (n <= String.length s)%nat -> exists pre, s = pre ++ drop n s.
Proof.
  revert s. induction n as [|n IH]; intros s H.
  - now exists "".
  - destruct s as [|a s]; simpl in *; [lia|].
    destruct (IH s) as [pre E]; [lia|].
    exists (String a pre). simpl. now rewrite <- E.
Qed.

(** [strings.HasSuffix] says what its name says. *)
Lemma HasSuffix_iff (s suffix : string) :
  HasSuffix s suffix = true <-> exists pre, s = pre ++ suffix.
Proof.
  split.
  - unfold HasSuffix, len. intro H. apply andb_true_iff in H.
    destruct H as [Hl He]. apply Z.leb_le in Hl. apply String.eqb_eq in He.
    destruct (drop_split (String.length s - String.length suffix) s) as [pre E];
      [lia|].
    exists pre. now rewrite He in E.
  - intros [pre ->]. apply HasSuffix_append.
Qed.

Lemma HasSuffix_longer (pre s suffix : string) :
  HasSuffix s suffix = true -> HasSuffix (pre ++ s) suffix = true.
Proof.
  intro H. apply HasSuffix_iff in H. destruct H as [s1 ->].
  rewrite <- append_assoc'. apply HasSuffix_append.
Qed.

(** ** The builder [newBuilder] makes *)

(** X1: in a builder made by [newBuilder] one name serves three purposes:
    it is the path of the command [restart] runs, the argument that follows
    [-o] in the arguments of [go build], and a path [isIgnore] always
    ignores.  That name holds a ['/'] or the separator of the platform. *)
Theorem newBuilder_one_output
    (pf : platform) (wd mainFiles outputName : string)
    (exts0 paths : list string) :
  let b := newBuilder pf wd mainFiles outputName exts0 paths in
  let p := resolveOutputName pf wd outputName in
  outputPath b = Some p
  /\ nth_error (goCmdArgs b) 1 = Some "-o"
  /\ nth_error (goCmdArgs b) 2 = Some p
  /\ isIgnore b p = true
  /\ contains p "/" || contains p (Separator pf) = true.
Proof.
  intros b p. split; [reflexivity|].
  assert (A : exists more, goCmdArgs b = "build" :: "-o" :: p :: more).
  { unfold b, newBuilder, buildArgs. simpl. fold p.
    destruct (0 <? len mainFiles); eexists; reflexivity. }
  destruct A as [more A]. rewrite A.
  split; [reflexivity|]. split; [reflexivity|]. split.
  - unfold isIgnore, b. simpl. fold p. now rewrite String.eqb_refl.
  - apply resolveOutputName_separator.
Qed.

(** X2: on Windows the name of the output always ends in [.exe], whether
    it was given, completed or taken from the working directory. *)
Theorem windows_output_exe (pf : platform) (wd outputName : string) :
  GOOS pf = "windows" ->
  HasSuffix (resolveOutputName pf wd outputName) ".exe" = true.
Proof.
  intro H. unfold resolveOutputName. rewrite H. simpl (String.eqb _ _).
  set (n1 := if len outputName =? 0 then _ else _).
  assert (E : HasSuffix (if true && negb (HasSuffix n1 ".exe")
                         then n1 ++ ".exe" else n1) ".exe" = true).
  { destruct (HasSuffix n1 ".exe") eqn:E1; simpl.
    - exact E1.
    - apply HasSuffix_append. }
  destruct (_ || _); [|exact E].
  apply HasSuffix_longer. now apply HasSuffix_longer.
Qed.

Lemma contains_nonempty (s : string) (c : ascii) :
  contains s c = true -> String.eqb s "" = false.
Proof. destruct s; [discriminate | reflexivity]. Qed.

(** X3: on Unix, resolving a resolved name gives it back: the result of
    [resolveOutputName] is a name the function leaves alone. *)
Theorem resolveOutputName_unix_idempotent (wd outputName : string) :
  resolveOutputName unix wd (resolveOutputName unix wd outputName)
  = resolveOutputName unix wd outputName.
Proof.
  pose proof (resolveOutputName_separator unix wd outputName) as H.
  simpl in H. rewrite orb_diag in H.
  set (r := resolveOutputName unix wd outputName) in *.
  rewrite (resolveOutputName_unix wd r). simpl.
  now rewrite (contains_nonempty r "/" H), H.
Qed.

(** ** Extensions *)

Lemma spec_normalize_fixed (l : list string) :
  Forall (fun ext => head ext = Some "."%char) l -> spec_normalize l = l.
Proof.
  unfold spec_normalize. induction 1 as [|e l He Hl IH]; simpl.
  - reflexivity.
  - destruct e as [|c e']; [discriminate|]. simpl in *.
    injection He as ->. unfold withDot at 1. simpl. now rewrite IH.
Qed.

(** X4: normalising twice is normalising once; a list that [newBuilder]
    stored can be handed to [newBuilder] again. *)
Theorem normalizeExts_idempotent (exts0 : list string) :
  normalizeExts [] (normalizeExts [] exts0) = normalizeExts [] exts0.
Proof.
  rewrite !normalizeExts_acc. simpl.
  apply spec_normalize_fixed, spec_normalize_dotted.
Qed.

Lemma scanExts_false_iff (exts : list string) (path : string) :
  scanExts exts path = false <->
  exists ext, In ext exts /\ ext <> ""
              /\ (ext = "*" \/ HasSuffix path ext = true).
Proof.
  induction exts as [|e rest IH]; simpl.
  - split; [discriminate | intros [ext [[] _]]].
  - destruct (len e =? 0) eqn:El.
    + apply len_zero in El. subst e. rewrite IH. split.
      * intros [ext [Hin H]]. exists ext. split; [now right | exact H].
      * intros [ext [[<- | Hin] [Hne H]]]; [congruence|].
        exists ext. now split.
    + assert (Hne : e <> "").
      { intro E. apply len_zero in E. congruence. }
      destruct (String.eqb e "*") eqn:Es.
      * apply String.eqb_eq in Es. split; [intros _ | reflexivity].
        exists e. split; [now left | split; [exact Hne | now left]].
      * destruct (HasSuffix path e) eqn:Eh.
        -- split; [intros _ | reflexivity].
           exists e. split; [now left | split; [exact Hne | now right]].
        -- rewrite IH. split.
           ++ intros [ext [Hin H]]. exists ext. split; [now right | exact H].
           ++ intros [ext [[<- | Hin] [Hn H]]].
              ** apply String.eqb_neq in Es. destruct H; congruence.
              ** exists ext. now split.
Qed.

(** X5: the filter depends on which extensions are listed, not on their
    order or number of occurrences, and listing more never hides a file:
    with the same command, a path kept under one list is kept under every
    list that holds the same entries or more. *)
Theorem isIgnore_monotone (b1 b2 : builder) (path : string) :
  appCmd b1 = appCmd b2 ->
  (forall ext, In ext (exts b1) -> In ext (exts b2)) ->
  isIgnore b1 path = false -> isIgnore b2 path = false.
Proof.
  intros Hc Hincl. unfold isIgnore. rewrite <- Hc.
  assert (S : scanExts (exts b1) path = false ->
              scanExts (exts b2) path = false).
  { rewrite !scanExts_false_iff. intros [ext [Hin H]].
    exists ext. split; [now apply Hincl | exact H]. }
  destruct (appCmd b1) as [c|]; [|exact S].
  destruct (String.eqb (Path c) path); [discriminate | exact S].
Qed.

Lemma withDot_nonempty (e : string) : e <> "" -> withDot e <> "".
Proof.
  intros H E. apply withDot_dotted in H. rewrite E in H. discriminate.
Qed.

(** X6: what the filter of a builder made by [newBuilder] lets through:
    a path is not ignored exactly when it is not the build output and ends
    in one of the non-empty extensions that were handed over, written with
    its dot.  Nothing else gets through, the wildcard included. *)
Theorem newBuilder_filter
    (pf : platform) (wd mainFiles outputName : string)
    (exts0 paths : list string) (path : string) :
  isIgnore (newBuilder pf wd mainFiles outputName exts0 paths) path = false
  <->
  path <> resolveOutputName pf wd outputName
  /\ exists e stem, In e exts0 /\ e <> "" /\ path = stem ++ withDot e.
Proof.
  split.
  - unfold isIgnore. simpl.
    destruct (String.eqb (resolveOutputName pf wd outputName) path) eqn:Eo;
      [discriminate|].
    apply String.eqb_neq in Eo. intro Hs. split; [congruence|].
    apply scanExts_false_iff in Hs. destruct Hs as [ext [Hin [_ Hm]]].
    destruct Hm as [-> | Hsuf].
    + now apply normalized_no_wildcard in Hin.
    + rewrite normalizeExts_acc in Hin. simpl in Hin.
      unfold spec_normalize in Hin. apply in_map_iff in Hin.
      destruct Hin as [e [<- He]]. apply filter_In in He.
      destruct He as [He Hn]. apply nonEmpty_true in Hn.
      apply HasSuffix_iff in Hsuf. destruct Hsuf as [stem ->].
      now exists e, stem.
  - intros [Hout [e [stem [Hin [Hne ->]]]]]. rewrite isIgnore_other.
    + apply scanExts_match with (withDot e).
      * simpl. rewrite normalizeExts_acc. simpl. unfold spec_normalize.
        apply in_map, filter_In. split; [exact Hin | now apply nonEmpty_true].
      * now apply withDot_nonempty.
      * apply HasSuffix_append.
    + simpl. intro E. injection E as E. congruence.
Qed.

(** ** [restart] and [build], whatever the environment does *)

(** X7: [restart] on a command that has no process yet kills nothing and
    asks the system once for a process at the path of the command.  When
    that fails the error is logged and the builder is unchanged, so the next
    [restart] tries again; when it succeeds the process is stored in the
    command and waited for, and an error of the wait is logged. *)
Theorem restart_fresh
    (o : oracle) (b : builder) (c : Cmd) (h : history) :
  appCmd b = Some c -> Process c = None ->
  restart b o h =
  match startProcess o h (Path c) with
  | inl e =>
      (b, (h ++ [CStartProcess (Path c) (inl e);
                 CLog erro [VStr "启动进程时出错:"; VErr e]])%list)
  | inr p =>
      let w := wait o (h ++ [CStartProcess (Path c) (inr p)])%list p in
      ({| exts := exts b;
          appCmd := Some {| Path := Path c; Process := Some p |};
          goCmdArgs := goCmdArgs b |},
       (h ++ [CStartProcess (Path c) (inr p); CWait p w]
          ++ match w with
             | Some e => [CLog erro [VStr "启动进程时出错:"; VErr e]]
             | None => []
             end)%list)
  end.
Proof.
  intros Hc Hp. run_build. rewrite Hc, Hp. simpl.
  destruct (startProcess o h (Path c)) as [e | p]; simpl.
  - history. f_equal. destruct b, c; simpl in *. now subst.
  - destruct (wait o _ p); simpl; now history.
Qed.

(** X8: [build] never changes what the filter looks at: the extensions,
    the arguments of [go build] and the path of the command are the same
    after it as before, in every environment; so [isIgnore] gives the same
    answers during the whole run. *)
Theorem build_keeps_configuration (o : oracle) (b : builder) (h : history) :
  let b' := fst (build b o h) in
  exts b' = exts b
  /\ goCmdArgs b' = goCmdArgs b
  /\ outputPath b' = outputPath b
  /\ forall path, isIgnore b' path = isIgnore b path.
Proof.
  assert (K : exts (fst (build b o h)) = exts b
              /\ goCmdArgs (fst (build b o h)) = goCmdArgs b
              /\ outputPath (fst (build b o h)) = outputPath b).
  { run_build. unfold outputPath.
    destruct (appCmd b) as [c|] eqn:Hc; simpl.
    - destruct (Process c) as [p|] eqn:Hp; simpl; outcomes;
        rewrite ?Hc; auto.
    - outcomes; rewrite ?Hc; auto. }
  destruct K as [K1 [K2 K3]]. simpl. repeat split; auto.
  intro path. unfold isIgnore. rewrite K1.
  unfold outputPath in K3.
  destruct (appCmd (fst (build b o h))) as [c'|], (appCmd b) as [c|];
    try discriminate; [|reflexivity].
  injection K3 as ->. reflexivity.
Qed.

(** X9: once the command has a process, no [build] replaces it: the
    builder comes back as it was and the system is never asked for a new
    process, whether [go build] or the kill succeed or fail. *)
Theorem build_live_never_starts
    (o : oracle) (b : builder) (c : Cmd) (p : pid) (h : history) :
  appCmd b = Some c -> Process c = Some p ->
  exists done,
    build b o h = (b, (h ++ done)%list) /\ count isStart done = 0%nat.
Proof.
  intros Hc Hp. run_build. rewrite Hc, Hp. simpl.
  assert (Eb : {| exts := exts b; appCmd := Some c; goCmdArgs := goCmdArgs b |} = b).
  { destruct b; simpl in *. now subst. }
  rewrite Eb.
  outcomes; eexists; (split; [history; reflexivity | reflexivity]).
Qed.

(** X10: one [build] calls [go build] exactly once, asks at most once for
    a process to be killed and at most once for one to be started, never
    reads the clock and never fires a further build. *)
Theorem build_call_counts (o : oracle) (b : builder) (h : history) :
  exists done,
    snd (build b o h) = (h ++ done)%list
    /\ count isGoRun done = 1%nat
    /\ (count isKill done <= 1)%nat
    /\ (count isStart done <= 1)%nat
    /\ count isNow done = 0%nat
    /\ builds done = 0%nat.
Proof.
  run_build.
  destruct (appCmd b) as [c|] eqn:Hc; simpl;
    [destruct (Process c) as [p|] eqn:Hp; simpl|];
    outcomes; eexists;
    (split; [history; reflexivity | cbv; repeat split; lia]).
Qed.

Lemma buildArgs_spelled (mainFiles p : string) :
  buildArgs mainFiles p =
  (["build"; "-o"; p] ++ if String.eqb mainFiles "" then [] else [mainFiles])%list.
Proof. unfold buildArgs. destruct mainFiles; reflexivity. Qed.

(** X11: what a [build] names is fixed by what [newBuilder] was given.
    Take a builder whose arguments and command path are those [newBuilder]
    made, whatever process the command holds.  Every [go build] it runs gets
    exactly [build -o p], followed by [mainFiles] when that is not empty,
    and every process it asks for is [p], the resolved output; and after the
    [build] the arguments and the path are still those of [newBuilder], so
    the same holds for the next one. *)
Theorem build_names_configured_files
    (pf : platform) (wd mainFiles outputName : string)
    (exts0 paths : list string) (o : oracle) (b : builder) (h : history) :
  let b0 := newBuilder pf wd mainFiles outputName exts0 paths in
  let p := resolveOutputName pf wd outputName in
  goCmdArgs b = goCmdArgs b0 -> outputPath b = outputPath b0 ->
  exists done,
    snd (build b o h) = (h ++ done)%list
    /\ Forall (namesAsConfigured mainFiles p) done
    /\ goCmdArgs (fst (build b o h)) = goCmdArgs b0
    /\ outputPath (fst (build b o h)) = outputPath b0.
Proof.
  intros b0 p Hargs Hout.
  assert (Ha : goCmdArgs b =
               (["build"; "-o"; p]
                  ++ if String.eqb mainFiles "" then [] else [mainFiles])%list).
  { rewrite Hargs. unfold b0, newBuilder. simpl goCmdArgs.
    apply buildArgs_spelled. }
  assert (Hp : outputPath b = Some p) by (rewrite Hout; reflexivity).
  rewrite <- Hargs, <- Hout. clear Hargs Hout.
  unfold outputPath in *. run_build.
  destruct (appCmd b) as [c|] eqn:Hc; [|discriminate].
  injection Hp as Hpath. simpl.
  destruct (Process c) as [q|] eqn:Hq; simpl;
    outcomes; rewrite ?Hc; eexists;
    (split; [history; reflexivity
            | split; [repeat constructor; assumption | split; reflexivity]]).
Qed.

(** ** The loop, whatever the clock shows *)

Lemma builds_snoc (h : history) (c : call) :
  builds (h ++ [c])%list = if isGoBuild c then S (builds h) else builds h.
Proof.
  rewrite builds_app. unfold builds at 2. simpl.
  destruct (isGoBuild c); simpl; lia.
Qed.

(** One turn either changes nothing but the log, or fires one build for an
    event that got past both filters, more than one second after
    [buildTime]. *)
Lemma onEvent_step (o : oracle) (b : builder) (buildTime : Z)
    (event : Event) (h : history) :
  let r := onEvent b buildTime event o h in
  let t := int64 (now o h) in
  (fst r = buildTime /\ builds (snd r) = builds h)
  \/ (passes b (OnEvents event) = true
      /\ 1 < sub64 t buildTime
      /\ fst r = int64 (now o (h ++ [CNow t])%list)
      /\ builds (snd r) = S (builds h)).
Proof.
  simpl. unfold onEvent.
  destruct (Z.land (Op event) Chmod =? Chmod) eqn:Ec; simpl.
  - left. unfold bind, Log, ret. simpl. now rewrite builds_snoc.
  - destruct (isIgnore b (Name event)) eqn:Ei; simpl.
    + left. unfold bind, Log, ret. simpl. now rewrite builds_snoc.
    + unfold bind, Now, Log, GoBuild, ret. simpl.
      destruct (sub64 (int64 (now o h)) buildTime <=? 1) eqn:Ed; simpl.
      * left. now rewrite !builds_snoc.
      * right. apply Z.leb_gt in Ed. rewrite !builds_snoc. simpl.
        repeat split. exact Ed.
Qed.

Lemma watchLoop_builds_range
    (o : oracle) (b : builder) (msgs : list message) (buildTime : Z)
    (h : history) :
  let h' := snd (watchLoop b buildTime msgs o h) in
  (builds h <= builds h' <= builds h + List.length (filter (passes b) msgs))%nat.
Proof.
  simpl. revert buildTime h.
  induction msgs as [|m rest IH]; intros buildTime h.
  - simpl. lia.
  - destruct m as [event | err].
    + change (watchLoop b buildTime (OnEvents event :: rest) o h)
        with (let (bt', h1) := onEvent b buildTime event o h in
              watchLoop b bt' rest o h1).
      pose proof (onEvent_step o b buildTime event h) as St. cbv zeta in St.
      destruct (onEvent b buildTime event o h) as [bt' h1].
      cbn [fst snd] in St.
      specialize (IH bt' h1).
      change (filter (passes b) (OnEvents event :: rest))
        with (if passes b (OnEvents event)
              then OnEvents event :: filter (passes b) rest
              else filter (passes b) rest).
      destruct St as [[_ E] | [Hp [_ [_ E]]]].
      * destruct (passes b (OnEvents event)); simpl; lia.
      * rewrite Hp. simpl. lia.
    + change (watchLoop b buildTime (OnErrors err :: rest) o h)
        with (watchLoop b buildTime rest o
                (h ++ [CLog warn [VStr "watcher.Errors"; VErr err]])%list).
      specialize (IH buildTime
                    (h ++ [CLog warn [VStr "watcher.Errors"; VErr err]])%list).
      rewrite builds_snoc in IH. simpl in *. lia.
Qed.

(** X12: the loop fires at most one build for each event that gets past
    the CHMOD test and the path filter, and none for anything else; builds
    already fired stay fired. *)
Theorem watchLoop_builds_bound
    (o : oracle) (b : builder) (msgs : list message) (buildTime : Z)
    (h : history) :
  let h' := snd (watchLoop b buildTime msgs o h) in
  (builds h <= builds h' <= builds h + List.length (filter (passes b) msgs))%nat.
Proof. apply watchLoop_builds_range. Qed.

(** X13: [buildTime] moves only when a build is fired: a stretch of the
    loop that fires nothing ends with the [buildTime] it began with. *)
Theorem buildTime_moves_with_builds
    (o : oracle) (b : builder) (msgs : list message) (buildTime : Z)
    (h : history) :
  builds (snd (watchLoop b buildTime msgs o h)) = builds h ->
  fst (watchLoop b buildTime msgs o h) = buildTime.
Proof.
  revert buildTime h.
  induction msgs as [|m rest IH]; intros buildTime h.
  - reflexivity.
  - destruct m as [event | err].
    + change (watchLoop b buildTime (OnEvents event :: rest) o h)
        with (let (bt', h1) := onEvent b buildTime event o h in
              watchLoop b bt' rest o h1).
      pose proof (onEvent_step o b buildTime event h) as St. cbv zeta in St.
      destruct (onEvent b buildTime event o h) as [bt' h1].
      cbn [fst snd] in St.
      pose proof (watchLoop_builds_range o b rest bt' h1) as Bd. simpl in Bd.
      intro E. destruct St as [[-> E1] | [_ [_ [_ E1]]]].
      * apply IH. congruence.
      * lia.
    + change (watchLoop b buildTime (OnErrors err :: rest) o h)
        with (watchLoop b buildTime rest o
                (h ++ [CLog warn [VStr "watcher.Errors"; VErr err]])%list).
      intro E. apply IH. now rewrite E, builds_snoc.
Qed.

(** While [buildTime] lies in a window of two seconds that holds every
    reading of the clock, nothing is fired. *)
Lemma watchLoop_within_window
    (o : oracle) (b : builder) (t : Z) (msgs : list message) :
  (forall h', t <= now o h' <= t + 1) ->
  - 2 ^ 63 <= t -> t + 1 <= max_int64 ->
  forall (buildTime : Z) (h : history),
    t <= buildTime <= t + 1 ->
    builds (snd (watchLoop b buildTime msgs o h)) = builds h.
Proof.
  intros Hclock Hlo Hhi.
  induction msgs as [|m rest IH]; intros buildTime h Hbt.
  - reflexivity.
  - destruct m as [event | err].
    + change (watchLoop b buildTime (OnEvents event :: rest) o h)
        with (let (bt', h1) := onEvent b buildTime event o h in
              watchLoop b bt' rest o h1).
      pose proof (onEvent_step o b buildTime event h) as St. cbv zeta in St.
      destruct (onEvent b buildTime event o h) as [bt' h1].
      cbn [fst snd] in St.
      destruct St as [[-> E1] | [_ [Hgo _]]].
      * rewrite IH by exact Hbt. exact E1.
      * exfalso. pose proof (Hclock h) as Hn.
        rewrite (int64_small (now o h)) in Hgo by lia.
        unfold sub64 in Hgo. rewrite int64_small in Hgo; unfold max_int64 in *; lia.
    + change (watchLoop b buildTime (OnErrors err :: rest) o h)
        with (watchLoop b buildTime rest o
                (h ++ [CLog warn [VStr "watcher.Errors"; VErr err]])%list).
      rewrite IH by exact Hbt. now rewrite builds_snoc.
Qed.

(** X14: a burst collapses into one build.  When every reading of the
    clock during a stretch of the loop falls within the same two consecutive
    seconds, that stretch fires at most one build, however many events it
    handles and whatever [buildTime] was before. *)
Theorem burst_fires_at_most_once
    (o : oracle) (b : builder) (t : Z) (msgs : list message)
    (buildTime : Z) (h : history) :
  (forall h', t <= now o h' <= t + 1) ->
  - 2 ^ 63 <= t -> t + 1 <= max_int64 ->
  (builds (snd (watchLoop b buildTime msgs o h)) <= builds h + 1)%nat.
Proof.
  intros Hclock Hlo Hhi. revert buildTime h.
  induction msgs as [|m rest IH]; intros buildTime h.
  - simpl. lia.
  - destruct m as [event | err].
    + change (watchLoop b buildTime (OnEvents event :: rest) o h)
        with (let (bt', h1) := onEvent b buildTime event o h in
              watchLoop b bt' rest o h1).
      pose proof (onEvent_step o b buildTime event h) as St. cbv zeta in St.
      destruct (onEvent b buildTime event o h) as [bt' h1].
      cbn [fst snd] in St.
      destruct St as [[-> E1] | [_ [_ [Ebt E1]]]].
      * rewrite <- E1. apply IH.
      * rewrite (watchLoop_within_window o b t rest Hclock Hlo Hhi bt' h1).
        -- lia.
        -- rewrite Ebt. pose proof (Hclock (h ++ [CNow (int64 (now o h))])%list).
           rewrite int64_small; unfold max_int64 in *; lia.
    + change (watchLoop b buildTime (OnErrors err :: rest) o h)
        with (watchLoop b buildTime rest o
                (h ++ [CLog warn [VStr "watcher.Errors"; VErr err]])%list).
      specialize (IH buildTime
                    (h ++ [CLog warn [VStr "watcher.Errors"; VErr err]])%list).
      rewrite builds_snoc in IH. simpl in *. lia.
Qed.

(** An event on a path the filter ignores is logged and dropped. *)
Lemma onEvent_ignored (o : oracle) (b : builder) (buildTime : Z)
    (event : Event) (h : history) :
  isIgnore b (Name event) = true ->
  exists line,
    onEvent b buildTime event o h = (buildTime, (h ++ [CLog ignore line])%list).
Proof.
  intro Hi. unfold onEvent. rewrite Hi.
  destruct (Z.land (Op event) Chmod =? Chmod); eexists; reflexivity.
Qed.

(** X15: writing the build output never fires a build.  For a builder made
    by [newBuilder], an event named after the resolved output, whatever its
    operation, is dropped with one line of log: the clock is not read,
    [buildTime] stays, and so the tool does not rebuild because it built. *)
Theorem output_event_dropped
    (pf : platform) (wd mainFiles outputName : string)
    (exts0 paths : list string) (o : oracle) (buildTime : Z)
    (event : Event) (h : history) :
  Name event = resolveOutputName pf wd outputName ->
  let b := newBuilder pf wd mainFiles outputName exts0 paths in
  exists line,
    onEvent b buildTime event o h = (buildTime, (h ++ [CLog ignore line])%list).
Proof.
  intros Hn b. apply onEvent_ignored. rewrite Hn.
  unfold isIgnore, b. simpl. now rewrite String.eqb_refl.
Qed.

(** ** Start-up *)

Lemma addPaths_all (e : Startup.env) (paths : list string)
    (h : list Startup.step) :
  (forall h' path, In path paths -> Startup.add e h' path = None) ->
  Startup.addPaths paths e h =
  (Startup.Returns tt, (h ++ map added paths)%list).
Proof.
  revert h. induction paths as [|p rest IH]; intros h H; simpl.
  - unfold Startup.ret. now rewrite app_nil_r.
  - unfold Startup.bind, Startup.Add. rewrite (H h p) by now left.
    rewrite IH by (intros; apply H; now right).
    now steps.
Qed.

Lemma addPaths_step (e : Startup.env) (p : string) (rest : list string)
    (h : list Startup.step) :
  Startup.addPaths (p :: rest) e h =
  match Startup.add e h p with
  | Some err =>
      (Startup.Exits 2,
       (h ++ [Startup.SAdd p (Some err);
              Startup.SLog erro [Startup.AStr "watcher.Add:"; Startup.AErr err];
              Startup.SExit 2])%list)
  | None => Startup.addPaths rest e (h ++ [Startup.SAdd p None])%list
  end.
Proof.
  simpl. unfold Startup.bind at 1. unfold Startup.Add. cbv beta zeta.
  destruct (Startup.add e h p); [|reflexivity].
  unfold Startup.bind, Startup.Log, Startup.Exit. now steps.
Qed.

(** The registration loop either adds every path, or stops at the first
    one the watcher refuses, logs the error and exits with status 2. *)
Lemma addPaths_cases (e : Startup.env) (paths : list string)
    (h : list Startup.step) :
  Startup.addPaths paths e h =
    (Startup.Returns tt, (h ++ map added paths)%list)
  \/ exists before bad after err,
       paths = (before ++ bad :: after)%list
       /\ Startup.add e (h ++ map added before)%list bad = Some err
       /\ Startup.addPaths paths e h =
          (Startup.Exits 2,
           (h ++ map added before
              ++ [Startup.SAdd bad (Some err);
                  Startup.SLog erro
                    [Startup.AStr "watcher.Add:"; Startup.AErr err];
                  Startup.SExit 2])%list).
Proof.
  revert h. induction paths as [|p rest IH]; intro h.
  - left. simpl. unfold Startup.ret. now rewrite app_nil_r.
  - rewrite addPaths_step. destruct (Startup.add e h p) as [err|] eqn:Ea.
    + right. exists [], p, rest, err. simpl. rewrite app_nil_r. auto.
    + destruct (IH (h ++ [Startup.SAdd p None])%list)
        as [E | [before [bad [after [err [Ep [Eb E]]]]]]].
      * left. rewrite E. now steps.
      * right. exists (p :: before), bad, after, err.
        split; [now rewrite Ep|]. split.
        -- rewrite <- Eb. now steps.
        -- rewrite E. now steps.
Qed.

Lemma watch_run (e : Startup.env) (paths : list string)
    (h : list Startup.step) :
  let opening := Startup.SLog info [Startup.AStr "初始化监视器..."] in
  Startup.watch paths e h =
  match Startup.newWatcher e (h ++ [opening])%list with
  | Some err =>
      (Startup.Exits 2,
       (h ++ [opening; Startup.SNewWatcher (Some err);
              Startup.SLog erro [Startup.AErr err]; Startup.SExit 2])%list)
  | None =>
      match Startup.addPaths paths e
              (h ++ [opening; Startup.SNewWatcher None;
                     Startup.SLog info
                       [Startup.AStr "以下路径或是文件将被监视:";
                        Startup.APaths paths]])%list with
      | (Startup.Returns _, h') => (Startup.Returns tt, (h' ++ [Startup.SGo])%list)
      | (Startup.Exits code, h') => (Startup.Exits code, h')
      end
  end.
Proof.
  intro opening. unfold Startup.watch.
  unfold Startup.bind at 1. unfold Startup.Log at 1. cbv beta iota zeta.
  unfold Startup.bind at 1. unfold Startup.NewWatcher. cbv beta iota zeta.
  fold opening.
  destruct (Startup.newWatcher e (h ++ [opening])%list) as [err|].
  - unfold Startup.bind, Startup.Log, Startup.Exit. now steps.
  - unfold Startup.bind at 1. unfold Startup.ret at 1. cbv beta iota zeta.
    unfold Startup.bind at 1. unfold Startup.Log at 1. cbv beta iota zeta.
    unfold Startup.bind at 1. rewrite <- !app_assoc. simpl.
    destruct (Startup.addPaths paths e _) as [[[]|code] h']; reflexivity.
Qed.

Lemma newBuilder_run (pf : platform) (mainFiles outputName : string)
    (exts0 paths : list string) (e : Startup.env) (h : list Startup.step) :
  Startup.newBuilder pf mainFiles outputName exts0 paths e h =
  match Startup.getwd e h with
  | inl err =>
      (Startup.Exits 2,
       (h ++ [Startup.SGetwd (inl err);
              Startup.SLog erro
                [Startup.AStr "获取当前工作目录时，发生以下错误:";
                 Startup.AErr err];
              Startup.SExit 2])%list)
  | inr wd =>
      match Startup.watch (paths ++ [wd])%list e
              (h ++ [Startup.SGetwd (inr wd)])%list with
      | (Startup.Returns _, h') =>
          (Startup.Returns (newBuilder pf wd mainFiles outputName exts0 paths),
           h')
      | (Startup.Exits code, h') => (Startup.Exits code, h')
      end
  end.
Proof.
  unfold Startup.newBuilder.
  unfold Startup.bind at 1. unfold Startup.Getwd. cbv beta iota zeta.
  destruct (Startup.getwd e h) as [err | wd].
  - unfold Startup.bind, Startup.Log, Startup.Exit. now steps.
  - unfold Startup.bind at 1.
    destruct (Startup.watch _ e _) as [[[]|code] h']; reflexivity.
Qed.

Lemma addPaths_refused (e : Startup.env) (before after : list string)
    (bad : string) (err : error) (h : list Startup.step) :
  (forall h' path, In path before -> Startup.add e h' path = None) ->
  Startup.add e (h ++ map added before)%list bad = Some err ->
  Startup.addPaths (before ++ bad :: after) e h =
  (Startup.Exits 2,
   (h ++ map added before
      ++ [Startup.SAdd bad (Some err);
          Startup.SLog erro [Startup.AStr "watcher.Add:"; Startup.AErr err];
          Startup.SExit 2])%list).
Proof.
  revert h. induction before as [|p before IH]; intros h Hok Hbad.
  - simpl in Hbad. rewrite app_nil_r in Hbad.
    change ([] ++ bad :: after)%list with (bad :: after).
    rewrite addPaths_step, Hbad. now steps.
  - change ((p :: before) ++ bad :: after)%list
      with (p :: (before ++ bad :: after))%list.
    rewrite addPaths_step. rewrite (Hok h p) by now left.
    rewrite IH.
    + now steps.
    + intros. apply Hok. now right.
    + rewrite <- Hbad. now steps.
Qed.

(** X16: when the working directory is known, the watcher is created and
    no path is refused, [newBuilder] registers the paths it was given, in
    their order, and the working directory after them, starts the loop and
    returns the builder made for that directory. *)
Theorem startup_registers_all
    (pf : platform) (mainFiles outputName : string)
    (exts0 paths : list string) (e : Startup.env) (wd : string) :
  Startup.getwd e [] = inr wd ->
  (forall h, Startup.newWatcher e h = None) ->
  (forall h path, In path (paths ++ [wd]) -> Startup.add e h path = None) ->
  Startup.newBuilder pf mainFiles outputName exts0 paths e [] =
  (Startup.Returns (newBuilder pf wd mainFiles outputName exts0 paths),
   ([Startup.SGetwd (inr wd);
     Startup.SLog info [Startup.AStr "初始化监视器..."];
     Startup.SNewWatcher None;
     Startup.SLog info [Startup.AStr "以下路径或是文件将被监视:";
                        Startup.APaths (paths ++ [wd])]]
      ++ map added (paths ++ [wd]) ++ [Startup.SGo])%list).
Proof.
  intros Hwd Hw Hadd.
  rewrite newBuilder_run, Hwd, watch_run, Hw, addPaths_all by exact Hadd.
  now steps.
Qed.

(** X17: when the watcher refuses a path, the paths after it are not
    registered, the error is logged, the loop is not started and the program
    exits with status 2. *)
Theorem startup_refused_path
    (pf : platform) (mainFiles outputName : string)
    (exts0 paths : list string) (e : Startup.env) (wd : string)
    (before after : list string) (bad : string) (err : error) :
  Startup.getwd e [] = inr wd ->
  (forall h, Startup.newWatcher e h = None) ->
  (paths ++ [wd])%list = (before ++ bad :: after)%list ->
  (forall h path, In path before -> Startup.add e h path = None) ->
  (forall h, Startup.add e h bad = Some err) ->
  Startup.newBuilder pf mainFiles outputName exts0 paths e [] =
  (Startup.Exits 2,
   ([Startup.SGetwd (inr wd);
     Startup.SLog info [Startup.AStr "初始化监视器..."];
     Startup.SNewWatcher None;
     Startup.SLog info [Startup.AStr "以下路径或是文件将被监视:";
                        Startup.APaths (paths ++ [wd])]]
      ++ map added before
      ++ [Startup.SAdd bad (Some err);
          Startup.SLog erro [Startup.AStr "watcher.Add:"; Startup.AErr err];
          Startup.SExit 2])%list).
Proof.
  intros Hwd Hw Hsplit Hok Hbad.
  rewrite newBuilder_run, Hwd, watch_run, Hw.
  match goal with
  | |- context [Startup.addPaths _ e ?h] =>
      pose proof (addPaths_refused e before after bad err h Hok (Hbad _)) as A
  end.
  rewrite <- Hsplit in A. rewrite A. now steps.
Qed.

(** X18: in every environment [newBuilder] ends in one of two ways.
    Either the program exits, always with status 2, and the loop was not
    started; or the builder for the working directory is returned, every
    given path and the working directory were registered, the loop was
    started last, and there was no exit. *)
Theorem startup_outcomes
    (pf : platform) (mainFiles outputName : string)
    (exts0 paths : list string) (e : Startup.env) :
  let r := Startup.newBuilder pf mainFiles outputName exts0 paths e [] in
  match fst r with
  | Startup.Exits code =>
      code = 2
      /\ exists pre, snd r = (pre ++ [Startup.SExit 2])%list
                     /\ ~ In Startup.SGo pre
  | Startup.Returns b =>
      exists wd pre,
        Startup.getwd e [] = inr wd
        /\ b = newBuilder pf wd mainFiles outputName exts0 paths
        /\ snd r = (pre ++ [Startup.SGo])%list
        /\ (forall path, In path (paths ++ [wd]) -> In (added path) pre)
        /\ (forall code, ~ In (Startup.SExit code) (snd r))
  end.
Proof.
  cbv zeta. rewrite newBuilder_run.
  destruct (Startup.getwd e []) as [err | wd] eqn:Hwd; simpl.
  - split; [reflexivity|]. eexists [_; _]. split; [reflexivity|].
    simpl. intuition discriminate.
  - rewrite watch_run. simpl.
    destruct (Startup.newWatcher e _) as [err|]; simpl.
    + split; [reflexivity|]. eexists [_; _; _; _]. split; [reflexivity|].
      simpl. intuition discriminate.
    + match goal with
      | |- context [Startup.addPaths ?ps e ?h] =>
          destruct (addPaths_cases e ps h)
            as [E | [before [bad [after [err [Ep [_ E]]]]]]]; rewrite E
      end; simpl.
      * exists wd. eexists (_ :: _ :: _ :: _ :: map added (paths ++ [wd]))%list.
        split; [reflexivity|]. split; [reflexivity|].
        split; [reflexivity|]. split.
        -- intros path Hin. do 4 right. now apply in_map.
        -- intros code Hin. simpl in Hin.
           destruct Hin as [H|[H|[H|[H|H]]]]; try discriminate.
           apply in_app_or in H. destruct H as [H | [H | []]];
             [|discriminate].
           apply in_map_iff in H. destruct H as [x [H _]]. discriminate.
      * split; [reflexivity|].
        eexists (_ :: _ :: _ :: _ :: map added before ++ [_; _])%list.
        split; [now steps|].
        simpl. intros [H|[H|[H|[H|H]]]]; try discriminate.
        apply in_app_or in H. destruct H as [H | [H | [H | []]]];
          try discriminate.
        apply in_map_iff in H. destruct H as [x [H _]]. discriminate.
Qed.

(** ** The default name on Unix *)

Lemma list_ascii_append (s1 s2 : string) :
  list_ascii_of_string (s1 ++ s2)
  = (list_ascii_of_string s1 ++ list_ascii_of_string s2)%list.
Proof. induction s1 as [|a s1 IH]; simpl; [reflexivity | now rewrite IH]. Qed.

Lemma string_of_list_append (l1 l2 : list ascii) :
  string_of_list_ascii (l1 ++ l2)
  = string_of_list_ascii l1 ++ string_of_list_ascii l2.
Proof. induction l1 as [|a l1 IH]; simpl; [reflexivity | now rewrite IH]. Qed.

Lemma lastElement_upto_slash (l rest : list ascii) (acc : string) :
  Forall (fun a => Ascii.eqb a "/" = false) l ->
  Unix.lastElement (l ++ "/"%char :: rest) acc
  = string_of_list_ascii (rev l) ++ acc.
Proof.
  intro H. revert acc. induction H as [|a l Ha Hl IH]; intro acc; simpl.
  - reflexivity.
  - rewrite Ha, IH, string_of_list_append, append_assoc'. reflexivity.
Qed.

Lemma contains_false_Forall (s : string) (c : ascii) :
  contains s c = false ->
  Forall (fun a => Ascii.eqb a c = false) (list_ascii_of_string s).
Proof.
  induction s as [|a s IH]; simpl; intro H.
  - constructor.
  - apply orb_false_iff in H. destruct H as [Ha Hs].
    constructor; [exact Ha | now apply IH].
Qed.

Lemma Base_of_joined (dir name : string) :
  name <> "" -> contains name "/" = false ->
  Unix.Base (dir ++ "/" ++ name) = name.
Proof.
  intros Hne Hns. unfold Unix.Base.
  assert (E0 : String.eqb (dir ++ "/" ++ name) "" = false).
  { destruct dir; reflexivity. }
  rewrite E0, list_ascii_append. simpl list_ascii_of_string.
  rewrite rev_app_distr. simpl rev. rewrite <- app_assoc. simpl app.
  pose proof (contains_false_Forall name "/" Hns) as F.
  apply Forall_rev in F.
  assert (Hl : rev (list_ascii_of_string name) <> []).
  { intro E. apply (f_equal (@rev ascii)) in E. rewrite rev_involutive in E.
    simpl in E. apply (f_equal string_of_list_ascii) in E.
    rewrite string_of_list_ascii_of_string in E. now apply Hne. }
  destruct (rev (list_ascii_of_string name)) as [|a l] eqn:El; [congruence|].
  assert (Ha : Ascii.eqb a "/" = false) by now inversion F.
  simpl (Unix.stripSlashes _). rewrite Ha.
  change (a :: l ++ "/"%char :: rev (list_ascii_of_string dir))%list
    with ((a :: l) ++ "/"%char :: rev (list_ascii_of_string dir))%list.
  rewrite lastElement_upto_slash by exact F.
  rewrite <- El, rev_involutive, string_of_list_ascii_of_string.
  assert (E1 : name ++ "" = name).
  { clear. induction name as [|c s IH]; simpl; [reflexivity | now rewrite IH]. }
  rewrite E1. apply String.eqb_neq in Hne. now rewrite Hne.
Qed.

(** X19: on Unix, with no name given, the program built in the directory
    [dir/name] is [dir/name/name]: the output takes the last element of the
    working directory as its name and lies in that directory. *)
Theorem default_output_unix (dir name mainFiles : string)
    (exts0 paths : list string) :
  name <> "" -> contains name "/" = false ->
  let wd := dir ++ "/" ++ name in
  outputPath (newBuilder unix wd mainFiles "" exts0 paths)
  = Some (wd ++ "/" ++ name).
Proof.
  intros Hne Hns wd. unfold outputPath. simpl appCmd. unfold Command. simpl Path.
  rewrite resolveOutputName_unix. simpl.
  unfold wd. rewrite (Base_of_joined dir name Hne Hns). now rewrite Hns.
Qed.

(** * The further properties at sample inputs *)

Lemma windows_output_exe_witness :
  GOOS (windows Unix.Base) = "windows"
  /\ HasSuffix (resolveOutputName (windows Unix.Base) "C:\proj" "app") ".exe"
     = true.
Proof.
  split; [reflexivity|].
  exact (windows_output_exe (windows Unix.Base) "C:\proj" "app" eq_refl).
Defined.

Lemma isIgnore_monotone_witness :
  appCmd proj = appCmd projWeb
  /\ isIgnore proj "/home/u/proj/main.go" = false
  /\ isIgnore projWeb "/home/u/proj/main.go" = false.
Proof.
  split; [reflexivity|]. split; [reflexivity|].
  apply (isIgnore_monotone proj projWeb "/home/u/proj/main.go").
  - reflexivity.
  - intros ext Hin. vm_compute in Hin. destruct Hin as [<- | []].
    vm_compute. tauto.
  - reflexivity.
Defined.

Lemma restart_fresh_witness :
  appCmd proj = Some (Command "/home/u/proj/proj")
  /\ restart proj calm [] =
     ({| exts := [".go"];
         appCmd := Some {| Path := "/home/u/proj/proj"; Process := Some 0%nat |};
         goCmdArgs := ["build"; "-o"; "/home/u/proj/proj"] |},
      [CStartProcess "/home/u/proj/proj" (inr 0%nat); CWait 0%nat None]).
Proof.
  split; [reflexivity|].
  exact (restart_fresh calm proj (Command "/home/u/proj/proj") []
           eq_refl eq_refl).
Defined.

Lemma build_live_never_starts_witness :
  exists done,
    build running stubborn [] = (running, done)
    /\ count isStart done = 0%nat.
Proof.
  exact (build_live_never_starts stubborn running
           {| Path := "/home/u/proj/proj"; Process := Some 7%nat |} 7%nat []
           eq_refl eq_refl).
Defined.

Lemma build_names_configured_files_witness :
  exists done,
    snd (build (newBuilder unix "/home/u/proj" "cmd/main.go" "" ["go"] [])
           calm []) = done
    /\ Forall (namesAsConfigured "cmd/main.go" "/home/u/proj/proj") done
    /\ goCmdArgs (fst (build (newBuilder unix "/home/u/proj" "cmd/main.go" ""
                                ["go"] []) calm []))
       = ["build"; "-o"; "/home/u/proj/proj"; "cmd/main.go"]
    /\ outputPath (fst (build (newBuilder unix "/home/u/proj" "cmd/main.go" ""
                                 ["go"] []) calm []))
       = Some "/home/u/proj/proj".
Proof.
  exact (build_names_configured_files unix "/home/u/proj" "cmd/main.go" ""
           ["go"] [] calm
           (newBuilder unix "/home/u/proj" "cmd/main.go" "" ["go"] []) []
           eq_refl eq_refl).
Defined.

Lemma buildTime_moves_with_builds_witness :
  builds (snd (watchLoop proj 42 [OnEvents touched; OnErrors "overflow"]
                 calm [])) = builds []
  /\ fst (watchLoop proj 42 [OnEvents touched; OnErrors "overflow"] calm [])
     = 42.
Proof.
  split; [reflexivity|].
  exact (buildTime_moves_with_builds calm proj
           [OnEvents touched; OnErrors "overflow"] 42 [] eq_refl).
Defined.

Lemma burst_fires_at_most_once_witness :
  (forall h', 100 <= now frozen h' <= 100 + 1)
  /\ (builds (snd (watchLoop proj 0
                     [OnEvents saved; OnEvents saved; OnEvents saved]
                     frozen []))
      <= builds [] + 1)%nat.
Proof.
  assert (Hclock : forall h', 100 <= now frozen h' <= 100 + 1).
  { intro h'. simpl. lia. }
  split; [exact Hclock|].
  apply (burst_fires_at_most_once frozen proj 100
           [OnEvents saved; OnEvents saved; OnEvents saved] 0 [] Hclock).
  - lia.
  - unfold max_int64. lia.
Defined.

Lemma startup_registers_all_witness :
  Startup.newBuilder unix "" "" ["go"] ["/a"; "/b"] friendly [] =
  (Startup.Returns proj,
   [Startup.SGetwd (inr "/home/u/proj");
    Startup.SLog info [Startup.AStr "初始化监视器..."];
    Startup.SNewWatcher None;
    Startup.SLog info [Startup.AStr "以下路径或是文件将被监视:";
                       Startup.APaths ["/a"; "/b"; "/home/u/proj"]];
    Startup.SAdd "/a" None; Startup.SAdd "/b" None;
    Startup.SAdd "/home/u/proj" None; Startup.SGo]).
Proof.
  exact (startup_registers_all unix "" "" ["go"] ["/a"; "/b"] friendly
           "/home/u/proj" eq_refl (fun _ => eq_refl) (fun _ _ _ => eq_refl)).
Defined.

Lemma startup_refused_path_witness :
  Startup.newBuilder unix "" "" ["go"] ["/a"; "/gone"; "/b"] oneMissing [] =
  (Startup.Exits 2,
   [Startup.SGetwd (inr "/home/u/proj");
    Startup.SLog info [Startup.AStr "初始化监视器..."];
    Startup.SNewWatcher None;
    Startup.SLog info [Startup.AStr "以下路径或是文件将被监视:";
                       Startup.APaths ["/a"; "/gone"; "/b"; "/home/u/proj"]];
    Startup.SAdd "/a" None;
    Startup.SAdd "/gone" (Some "no such file or directory");
    Startup.SLog erro [Startup.AStr "watcher.Add:";
                       Startup.AErr "no such file or directory"];
    Startup.SExit 2]).
Proof.
  apply (startup_refused_path unix "" "" ["go"] ["/a"; "/gone"; "/b"]
           oneMissing "/home/u/proj" ["/a"] ["/b"; "/home/u/proj"] "/gone"
           "no such file or directory").
  - reflexivity.
  - reflexivity.
  - reflexivity.
  - intros h path [<- | []]. reflexivity.
  - reflexivity.
Defined.

Lemma default_output_unix_witness :
  outputPath (newBuilder unix "/home/u/proj" "main.go" "" ["go"] [])
  = Some "/home/u/proj/proj".
Proof.
  apply (default_output_unix "/home/u" "proj" "main.go" ["go"] []).
  - discriminate.
  - reflexivity.
Defined.

Lemma output_event_dropped_witness :
  exists line,
    onEvent proj 0 rebuilt calm [] = (0, [CLog ignore line]).
Proof.
  exact (output_event_dropped unix "/home/u/proj" "" "" ["go"] [] calm 0
           rebuilt [] eq_refl).
Defined.
